(** * custom_filter: the filter library, its two query compilers and the
    in-memory evaluator

    A shallow embedding of
      - the types of [lib/types.ts] (FieldType, Operator, FieldSchema) and the
        [QueryBuilder] interface of [lib/queryBuilder.ts],
      - class [FilterLibrary] of [lib/filter.ts]: [registerBuilder],
        [buildQuery], [validate] with [validateNode], [validateGroup],
        [validateCondition], [validateValue] and [checkType], [toMongoQuery]
        with [groupToMongo] and [conditionToMongo], [toSqlWhere] with
        [groupToSql] and [conditionToSql],
      - [MongoBuilder] and [SqlBuilder] of [lib/mongoBuilder.ts] and
        [lib/sqlBuilder.ts],
      - [matchesQuery] of class [UserRepository] ([repo/userRepository.ts]),
      - [userSchema] and [users] of [data/userSchema.ts] and [data/users.ts].

    The library receives whatever the HTTP layer parsed from JSON, so filters,
    compiled queries and record fields are all values of one type [jsval] of
    JavaScript values.  A call either returns or throws: [result]. *)

From Stdlib Require Import ZArith String Ascii List Bool Lia DecimalString.
From stdpp Require Import base gmap strings.
Import ListNotations.
Local Open Scope string_scope.
Local Open Scope list_scope.

(* ================================================================== *)
(** ** JavaScript values *)
(* ================================================================== *)

(** [VNum] holds an integer-valued Number (NaN, infinities and fractions are
    not represented); strings are byte strings; [VDate t] is a Date object with
    time value [t]; the property list of [VObj] is the object's own enumerable
    properties in [Object.keys] order.  Properties inherited from the built-in
    prototypes ([toString], [constructor], ...) are not part of the model. *)
Inductive jsval : Type :=
| VUndefined
| VNull
| VBool (b : bool)
| VNum (n : Z)
| VStr (s : string)
| VDate (t : Z)
| VArr (xs : list jsval)
| VObj (ps : list (string * jsval)).

(** What a call can throw. *)
Inductive exn : Type :=
| TypeError
| SyntaxError
| Error (message : string).

Inductive result (A : Type) : Type :=
| Ok (a : A)
| Throw (e : exn).
Arguments Ok {A} a.
Arguments Throw {A} e.

Definition bind {A B} (m : result A) (f : A -> result B) : result B :=
  match m with
  | Ok a => f a
  | Throw e => Throw e
  end.

Notation "'let*' x ':=' m 'in' k" := (bind m (fun x => k))
  (at level 10, x name, m at level 100, k at level 200).

(** The host operations the engine supplies and this development leaves
    open: which strings [Date.parse] accepts (implementation-defined outside
    the ISO format), how a Date prints (time-zone dependent), the relational
    comparison outside number/number and string/string (it needs float
    arithmetic), and the regular-expression engine. *)
Record Runtime : Type := {
  (** [!isNaN(Date.parse(s))] *)
  date_parses : string -> bool;
  (** [Date.prototype.toString] *)
  date_toString : Z -> string;
  (** the abstract relational comparison [a < b]; [None] is "undefined" *)
  host_less_than : jsval -> jsval -> result (option bool);
  (** whether [new RegExp(pattern, flags)] is accepted (it throws a
      SyntaxError otherwise) *)
  regexp_valid : string -> string -> bool;
  (** [new RegExp(pattern, flags).test(subject)] for an accepted pattern *)
  regexp_test : string -> string -> string -> bool
}.

(** The double quote character, for messages. *)
Definition dq : string := String "034" EmptyString.

Definition nat_str (i : nat) : string := NilZero.string_of_uint (Nat.to_uint i).
Definition Z_str (n : Z) : string := NilZero.string_of_int (Z.to_int n).

(** [xs.join(sep)] on strings *)
Definition join (sep : string) (xs : list string) : string := String.concat sep xs.

(** [!v] is [negb (truthy v)] *)
Definition truthy (v : jsval) : bool :=
  match v with
  | VUndefined | VNull => false
  | VBool b => b
  | VNum n => negb (n =? 0)%Z
  | VStr s => negb (s =? "")%string
  | VDate _ | VArr _ | VObj _ => true
  end.

(** [typeof v === "object"] *)
Definition typeof_object (v : jsval) : bool :=
  match v with
  | VNull | VDate _ | VArr _ | VObj _ => true
  | _ => false
  end.

(** own property lookup in a property list; [None] when the key is absent *)
Fixpoint get_prop (k : string) (ps : list (string * jsval)) : option jsval :=
  match ps with
  | [] => None
  | (k', v) :: ps' => if (k =? k')%string then Some v else get_prop k ps'
  end.

(** [o[k]] on a property list: [undefined] when absent *)
Definition prop (k : string) (ps : list (string * jsval)) : jsval :=
  match get_prop k ps with
  | Some v => v
  | None => VUndefined
  end.

(** Reading [o[k]] and handing the value to the rest of the computation.  It
    is [f (prop k ps)] (lemma [reading_prop]); written as a recursion over the
    property list so that [f] may recurse into the value read. *)
Section Reading.
Context {A : Type} (k : string) (f : jsval -> A).
Fixpoint reading_from (ps : list (string * jsval)) : A :=
  match ps with
  | [] => f VUndefined
  | (k', v) :: ps' => if (k =? k')%string then f v else reading_from ps'
  end.
End Reading.
Definition reading {A} (k : string) (ps : list (string * jsval)) (f : jsval -> A) : A :=
  reading_from k f ps.

(** [xs.map(f)] where [f] may throw: the first exception ends the loop *)
Section MapM.
Context {A B : Type} (f : A -> result B).
Fixpoint mapM (xs : list A) : result (list B) :=
  match xs with
  | [] => Ok []
  | x :: xs' => let* y := f x in let* ys := mapM xs' in Ok (y :: ys)
  end.
End MapM.

(** [String(v)] and template-literal interpolation.  An object prints through
    [Object.prototype.toString] unless it has an own [toString] property, which
    in this model is never callable: then the conversion throws.  Array
    elements [undefined] and [null] print as the empty string.  [Z_str] is the
    engine's rendering for integers below 10^21 in magnitude. *)
Section ToStr.
Variable rt : Runtime.
Fixpoint toStr (v : jsval) : result string :=
  match v with
  | VUndefined => Ok "undefined"
  | VNull => Ok "null"
  | VBool true => Ok "true"
  | VBool false => Ok "false"
  | VNum n => Ok (Z_str n)
  | VStr s => Ok s
  | VDate t => Ok (date_toString rt t)
  | VArr xs =>
      let* parts := mapM (fun x => match x with
                                   | VUndefined | VNull => Ok ""
                                   | _ => toStr x
                                   end) xs in
      Ok (join "," parts)
  | VObj ps =>
      match get_prop "toString" ps with
      | Some _ => Throw TypeError
      | None => Ok "[object Object]"
      end
  end.
End ToStr.

(** [a === b].  Objects, arrays and Dates compare by identity; a filter or a
    compiled query never shares an object with a record, so two such values
    are never identical here. *)
Definition strict_eq (a b : jsval) : bool :=
  match a, b with
  | VUndefined, VUndefined => true
  | VNull, VNull => true
  | VBool x, VBool y => Bool.eqb x y
  | VNum x, VNum y => (x =? y)%Z
  | VStr x, VStr y => (x =? y)%string
  | _, _ => false
  end.

(** [o[k]] for the property names the library reads ([field], [operator],
    [value], [and], [or], [$and], [$or], [$options]): reading a property of
    [undefined] or [null] throws; arrays, Dates and primitives have no such
    property. *)
Definition get (o : jsval) (k : string) : result jsval :=
  match o with
  | VUndefined | VNull => Throw TypeError
  | VObj ps => Ok (prop k ps)
  | _ => Ok VUndefined
  end.

(** ["field" in node]: the [in] operator throws on a primitive. *)
Definition field_in (node : jsval) : result bool :=
  match node with
  | VObj ps => Ok (match get_prop "field" ps with Some _ => true | None => false end)
  | VArr _ | VDate _ => Ok false
  | _ => Throw TypeError
  end.

(** [xs.forEach((x, i) => errors.push(...f(x, i)))] *)
Section Collect.
Context {A E : Type} (f : A -> nat -> result (list E)).
Fixpoint collect_from (i : nat) (xs : list A) {struct xs} : result (list E) :=
  match xs with
  | [] => Ok []
  | x :: xs' =>
      let* e := f x i in
      let* es := collect_from (S i) xs' in
      Ok (e ++ es)
  end.
End Collect.
Definition collect {A E} (f : A -> nat -> result (list E)) (xs : list A) :=
  collect_from f 0 xs.

(* ================================================================== *)
(** ** types.ts *)
(* ================================================================== *)

Inductive FieldType : Type :=
| TString | TNumber | TBoolean | TDate | TEnum | TUuid.

Inductive Operator : Type :=
| Op_eq | Op_neq | Op_gt | Op_lt | Op_gte | Op_lte
| Op_in | Op_between
| Op_contains | Op_starts_with | Op_ends_with
| Op_is_null | Op_is_not_null.

(** the string each member of the [Operator] union is *)
Definition operator_name (op : Operator) : string :=
  match op with
  | Op_eq => "eq" | Op_neq => "neq" | Op_gt => "gt" | Op_lt => "lt"
  | Op_gte => "gte" | Op_lte => "lte"
  | Op_in => "in" | Op_between => "between"
  | Op_contains => "contains" | Op_starts_with => "starts_with"
  | Op_ends_with => "ends_with"
  | Op_is_null => "is_null" | Op_is_not_null => "is_not_null"
  end.

Definition all_operators : list Operator :=
  [Op_eq; Op_neq; Op_gt; Op_lt; Op_gte; Op_lte; Op_in; Op_between;
   Op_contains; Op_starts_with; Op_ends_with; Op_is_null; Op_is_not_null].

(** which case label of [switch (operator)] a value selects, if any *)
Definition operator_of (v : jsval) : option Operator :=
  match v with
  | VStr s => find (fun op => (operator_name op =? s)%string) all_operators
  | _ => None
  end.

Record FieldSchema : Type := {
  name : string;
  type : FieldType;
  filterable : bool;
  allowedOperators : option (list Operator);
  enumValues : option (list string)
}.

(* ================================================================== *)
(** ** queryBuilder.ts *)
(* ================================================================== *)

(** [interface QueryBuilder<T = any> { build(filter: FilterInput): T }] *)
Record QueryBuilder : Type := { build : jsval -> result jsval }.

(* ================================================================== *)
(** ** filter.ts: the validator *)
(* ================================================================== *)

Record ValidationError : Type := { path : string; message : string }.

Record FilterLibrary : Type := {
  schemaMap : gmap string FieldSchema;
  builder : gmap string QueryBuilder
}.

Definition defaultOperators (t : FieldType) : list Operator :=
  match t with
  | TString => [Op_eq; Op_neq; Op_contains; Op_starts_with; Op_ends_with; Op_in;
                Op_is_null; Op_is_not_null]
  | TNumber => [Op_eq; Op_neq; Op_gt; Op_lt; Op_gte; Op_lte; Op_between; Op_in;
                Op_is_null; Op_is_not_null]
  | TBoolean => [Op_eq; Op_neq; Op_is_null; Op_is_not_null]
  | TDate => [Op_eq; Op_neq; Op_gt; Op_lt; Op_gte; Op_lte; Op_between;
              Op_is_null; Op_is_not_null]
  | TEnum => [Op_eq; Op_neq; Op_in; Op_is_null; Op_is_not_null]
  | TUuid => [Op_eq; Op_neq; Op_in; Op_is_null; Op_is_not_null]
  end.

(** [new FilterLibrary(schema)]: [new Map(schema.map(s => [s.name, s]))], a
    later entry replacing an earlier one of the same name; no builder yet. *)
Definition new_FilterLibrary (schema : list FieldSchema) : FilterLibrary :=
  {| schemaMap := fold_left (fun m s => <[name s := s]> m) schema ∅;
     builder := ∅ |}.

Definition registerBuilder (lib : FilterLibrary) (nm : string) (b : QueryBuilder)
  : FilterLibrary :=
  {| schemaMap := schemaMap lib; builder := <[nm := b]> (builder lib) |}.

Definition buildQuery (lib : FilterLibrary) (nm : string) (filter : jsval)
  : result jsval :=
  match builder lib !! nm with
  | None => Throw (Error ("Query builder " +:+ dq +:+ nm +:+ dq +:+ " is not registered"))
  | Some b => build b filter
  end.

(** The character classes of the UUID pattern
    [/^[0-9a-fA-F-]{8}-[0-9a-fA-F]{4}-[1-5][0-9a-fA-F]{3}-[89ab][0-9a-fA-F]{3}-[0-9a-fA-F]{12}$/] *)
Inductive char_class : Type := Hex | HexOrDash | Dash | Version | Variant.

Definition between_chars (lo hi c : ascii) : bool :=
  (nat_of_ascii lo <=? nat_of_ascii c)%nat && (nat_of_ascii c <=? nat_of_ascii hi)%nat.

Definition is_hex (c : ascii) : bool :=
  between_chars "0" "9" c || between_chars "a" "f" c || between_chars "A" "F" c.

Definition in_class (cl : char_class) (c : ascii) : bool :=
  match cl with
  | Hex => is_hex c
  | HexOrDash => is_hex c || Ascii.eqb c "-"
  | Dash => Ascii.eqb c "-"
  | Version => between_chars "1" "5" c
  | Variant => Ascii.eqb c "8" || Ascii.eqb c "9" || Ascii.eqb c "a" || Ascii.eqb c "b"
  end.

Definition uuid_pattern : list char_class :=
  repeat HexOrDash 8 ++ [Dash] ++ repeat Hex 4 ++ [Dash] ++
  [Version] ++ repeat Hex 3 ++ [Dash] ++
  [Variant] ++ repeat Hex 3 ++ [Dash] ++ repeat Hex 12.

Fixpoint matches_classes (pat : list char_class) (cs : list ascii) : bool :=
  match pat, cs with
  | [], [] => true
  | cl :: pat', c :: cs' => in_class cl c && matches_classes pat' cs'
  | _, _ => false
  end.

Definition uuid_shape (s : string) : bool :=
  matches_classes uuid_pattern (list_ascii_of_string s).

Section Validator.
Variable rt : Runtime.
Variable lib : FilterLibrary.

Definition checkType (value : jsval) (type : FieldType) (path : string)
    (schema : FieldSchema) : result (list ValidationError) :=
  match type with
  | TString =>
      match value with
      | VStr _ => Ok []
      | _ => Ok [ {| path := path; message := "must be a string" |} ]
      end
  | TNumber =>
      match value with
      | VNum _ => Ok []
      | _ => Ok [ {| path := path; message := "must be a number" |} ]
      end
  | TBoolean =>
      match value with
      | VBool _ => Ok []
      | _ => Ok [ {| path := path; message := "must be a boolean" |} ]
      end
  | TDate =>
      let* s := toStr rt value in
      if date_parses rt s then Ok []
      else Ok [ {| path := path; message := "must be a valid date" |} ]
  | TUuid =>
      match value with
      | VStr s =>
          if uuid_shape s then Ok []
          else Ok [ {| path := path; message := "must be a valid UUID" |} ]
      | _ => Ok [ {| path := path; message := "must be a valid UUID" |} ]
      end
  | TEnum =>
      match value with
      | VStr s =>
          match enumValues schema with
          | Some vs =>
              if existsb (String.eqb s) vs then Ok []
              else Ok [ {| path := path;
                           message := "must be one of: " +:+ join ", " vs |} ]
          | None => Ok []
          end
      | _ => Ok [ {| path := path; message := "must be a valid enum value" |} ]
      end
  end.

(** [operator === s] *)
Definition is_op (operator : jsval) (s : string) : bool := strict_eq operator (VStr s).

Definition validateValue (cond : jsval) (type : FieldType) (path : string)
    (schema : FieldSchema) : result (list ValidationError) :=
  let* operator := get cond "operator" in
  let* value := get cond "value" in
  if is_op operator "is_null" || is_op operator "is_not_null" then
    if strict_eq value VUndefined then Ok []
    else
      let* o := toStr rt operator in
      Ok [ {| path := path;
              message := "Operator " +:+ dq +:+ o +:+ dq +:+ " does not take a value" |} ]
  else if is_op operator "between" then
    match value with
    | VArr [v0; v1] =>
        collect (fun v i =>
          checkType v type (path +:+ ".value[" +:+ nat_str i +:+ "]") schema) [v0; v1]
    | _ => Ok [ {| path := path;
                   message := dq +:+ "between" +:+ dq +:+ " operator requires exactly 2 values" |} ]
    end
  else if is_op operator "in" then
    match value with
    | VArr vs =>
        collect (fun v i =>
          checkType v type (path +:+ ".value[" +:+ nat_str i +:+ "]") schema) vs
    | _ => Ok [ {| path := path;
                   message := dq +:+ "in" +:+ dq +:+ " operator requires an array" |} ]
    end
  else if strict_eq value VUndefined then
    Ok [ {| path := path; message := "Field requires a value" |} ]
  else checkType value type (path +:+ ".value") schema.

(** [schema.allowedOperators ?? (this.defaultOperators[schema.type] || [])] *)
Definition allowedOps (schema : FieldSchema) : list Operator :=
  match allowedOperators schema with
  | Some ops => ops
  | None => defaultOperators (type schema)
  end.

(** [allowedOps.includes(cond.operator)] *)
Definition includes_operator (ops : list Operator) (operator : jsval) : bool :=
  match operator with
  | VStr s => existsb (fun op => (operator_name op =? s)%string) ops
  | _ => false
  end.

Definition validateCondition (cond : jsval) (path : string)
    : result (list ValidationError) :=
  let* field := get cond "field" in
  match (match field with VStr f => schemaMap lib !! f | _ => None end) with
  | None =>
      let* f := toStr rt field in
      Ok [ {| path := path;
              message := "Field " +:+ dq +:+ f +:+ dq +:+ " is not allowed for filtering" |} ]
  | Some schema =>
      if negb (filterable schema) then
        let* f := toStr rt field in
        Ok [ {| path := path;
                message := "Field " +:+ dq +:+ f +:+ dq +:+ " is not filterable" |} ]
      else
        let* operator := get cond "operator" in
        let* errors :=
          if includes_operator (allowedOps schema) operator then Ok []
          else
            let* o := toStr rt operator in
            let* f := toStr rt field in
            Ok [ {| path := path;
                    message := "Operator " +:+ dq +:+ o +:+ dq +:+
                               " is not allowed for field " +:+ dq +:+ f +:+ dq |} ]
        in
        let* more := validateValue cond (type schema) path schema in
        Ok (errors ++ more)
  end.

(** One branch of [validateGroup]: [key] is ["and"] or ["or"], [branch] is
    [group[key]]; [validateNode] is the method the branch calls back. *)
Definition validateBranch (validateNode : jsval -> string -> result (list ValidationError))
    (key : string) (path : string) (branch : jsval)
    : result (list ValidationError) :=
  match branch with
  | VUndefined => Ok []
  | VArr cs =>
      collect (fun c i =>
        validateNode c (path +:+ "." +:+ key +:+ "[" +:+ nat_str i +:+ "]")) cs
  | _ => Ok [ {| path := path;
                 message := dq +:+ key +:+ dq +:+ " must be an array" |} ]
  end.

Definition validateGroup (validateNode : jsval -> string -> result (list ValidationError))
    (group : jsval) (path : string) : result (list ValidationError) :=
  match group with
  | VUndefined | VNull => Throw TypeError
  | VObj ps =>
      let* errors := reading "and" ps (validateBranch validateNode "and" path) in
      let* more := reading "or" ps (validateBranch validateNode "or" path) in
      Ok (errors ++ more)
  | _ => Ok []
  end.

Fixpoint validateNode (node : jsval) (path : string) {struct node}
    : result (list ValidationError) :=
  let* is_condition := field_in node in
  if is_condition then validateCondition node path
  else validateGroup validateNode node path.

Definition validate (filter : jsval) : result (list ValidationError) :=
  if negb (truthy filter) then Ok []
  else validateNode filter "<root>".
End Validator.

(* ================================================================== *)
(** ** filter.ts: the two compilers *)
(* ================================================================== *)

(** [value[i]] *)
Definition index (v : jsval) (i : nat) : result jsval :=
  match v with
  | VUndefined | VNull => Throw TypeError
  | VArr xs => Ok (nth i xs VUndefined)
  | VStr s =>
      Ok (match String.get i s with
          | Some c => VStr (String c EmptyString)
          | None => VUndefined
          end)
  | VObj ps => Ok (prop (nat_str i) ps)
  | _ => Ok VUndefined
  end.

(** The arrow function both compilers map over a branch:
    [(c) => "field" in c ? this.conditionToX(c) : this.groupToX(c)] *)
Definition dispatch {A} (onCondition onGroup : jsval -> result A) (c : jsval)
  : result A :=
  let* is_condition := field_in c in
  if is_condition then onCondition c else onGroup c.

(** [{sql: string, params: any[]}] *)
Record SqlWhere : Type := { sql : string; params : jsval }.

(** what [...xs.flatMap(f)] contributes for one result of [f]: the elements
    of an array, or the value itself *)
Definition spread (v : jsval) : list jsval :=
  match v with
  | VArr xs => xs
  | _ => [v]
  end.

Definition opt_key {A} (k : string) (o : option A) : list (string * A) :=
  match o with
  | Some v => [(k, v)]
  | None => []
  end.

Section Compilers.
Variable rt : Runtime.

Definition conditionToMongo (cond : jsval) : result jsval :=
  let* field := get cond "field" in
  let* operator := get cond "operator" in
  let* value := get cond "value" in
  match operator_of operator with
  | Some Op_eq =>
      let* k := toStr rt field in Ok (VObj [(k, value)])
  | Some Op_neq =>
      let* k := toStr rt field in Ok (VObj [(k, VObj [("$ne", value)])])
  | Some Op_gt =>
      let* k := toStr rt field in Ok (VObj [(k, VObj [("$gt", value)])])
  | Some Op_lt =>
      let* k := toStr rt field in Ok (VObj [(k, VObj [("$lt", value)])])
  | Some Op_gte =>
      let* k := toStr rt field in Ok (VObj [(k, VObj [("$gte", value)])])
  | Some Op_lte =>
      let* k := toStr rt field in Ok (VObj [(k, VObj [("$lte", value)])])
  | Some Op_in =>
      let* k := toStr rt field in Ok (VObj [(k, VObj [("$in", value)])])
  | Some Op_between =>
      let* k := toStr rt field in
      let* v0 := index value 0 in
      let* v1 := index value 1 in
      Ok (VObj [(k, VObj [("$gte", v0); ("$lte", v1)])])
  | Some Op_contains =>
      let* k := toStr rt field in
      Ok (VObj [(k, VObj [("$regex", value); ("$options", VStr "i")])])
  | Some Op_starts_with =>
      let* k := toStr rt field in
      let* v := toStr rt value in
      Ok (VObj [(k, VObj [("$regex", VStr ("^" +:+ v)); ("$options", VStr "i")])])
  | Some Op_ends_with =>
      let* k := toStr rt field in
      let* v := toStr rt value in
      Ok (VObj [(k, VObj [("$regex", VStr (v +:+ "$")); ("$options", VStr "i")])])
  | Some Op_is_null =>
      let* k := toStr rt field in Ok (VObj [(k, VNull)])
  | Some Op_is_not_null =>
      let* k := toStr rt field in Ok (VObj [(k, VObj [("$ne", VNull)])])
  | None =>
      let* o := toStr rt operator in
      Throw (Error ("Unsupported operator: " +:+ o))
  end.

(** [if (group[key]) outputs["$" + key] = group[key].map(node)]: on a truthy
    value that is not an array, [.map] is not a function. *)
Definition mongoBranch (node : jsval -> result jsval) (branch : jsval)
    : result (option jsval) :=
  if truthy branch then
    match branch with
    | VArr cs => let* qs := mapM node cs in Ok (Some (VArr qs))
    | _ => Throw TypeError
    end
  else Ok None.

Fixpoint groupToMongo (group : jsval) {struct group} : result jsval :=
  match group with
  | VUndefined | VNull => Throw TypeError
  | VObj ps =>
      let* a := reading "and" ps (mongoBranch (dispatch conditionToMongo groupToMongo)) in
      let* o := reading "or" ps (mongoBranch (dispatch conditionToMongo groupToMongo)) in
      Ok (VObj (opt_key "$and" a ++ opt_key "$or" o))
  | _ => Ok (VObj [])
  end.

Definition toMongoQuery (filter : jsval) : result jsval :=
  if negb (truthy filter) then Ok (VObj [])
  else dispatch conditionToMongo groupToMongo filter.

Definition conditionToSql (cond : jsval) : result SqlWhere :=
  let* field := get cond "field" in
  let* operator := get cond "operator" in
  let* value := get cond "value" in
  match operator_of operator with
  | Some Op_eq =>
      let* f := toStr rt field in
      Ok {| sql := f +:+ " = ?"; params := VArr [value] |}
  | Some Op_neq =>
      let* f := toStr rt field in
      Ok {| sql := f +:+ " <> ?"; params := VArr [value] |}
  | Some Op_gt =>
      let* f := toStr rt field in
      Ok {| sql := f +:+ " > ?"; params := VArr [value] |}
  | Some Op_lt =>
      let* f := toStr rt field in
      Ok {| sql := f +:+ " < ?"; params := VArr [value] |}
  | Some Op_gte =>
      let* f := toStr rt field in
      Ok {| sql := f +:+ " >= ?"; params := VArr [value] |}
  | Some Op_lte =>
      let* f := toStr rt field in
      Ok {| sql := f +:+ " <= ?"; params := VArr [value] |}
  | Some Op_in =>
      let* f := toStr rt field in
      match value with
      | VArr vs =>
          Ok {| sql := f +:+ " IN (" +:+ join ", " (map (fun _ => "?") vs) +:+ ")";
                params := value |}
      | _ => Throw TypeError
      end
  | Some Op_between =>
      let* f := toStr rt field in
      Ok {| sql := f +:+ " BETWEEN ? AND ?"; params := value |}
  | Some Op_contains =>
      let* f := toStr rt field in
      let* v := toStr rt value in
      Ok {| sql := f +:+ " LIKE ?"; params := VArr [VStr ("%" +:+ v +:+ "%")] |}
  | Some Op_starts_with =>
      let* f := toStr rt field in
      let* v := toStr rt value in
      Ok {| sql := f +:+ " LIKE ?"; params := VArr [VStr (v +:+ "%")] |}
  | Some Op_ends_with =>
      let* f := toStr rt field in
      let* v := toStr rt value in
      Ok {| sql := f +:+ " LIKE ?"; params := VArr [VStr ("%" +:+ v)] |}
  | Some Op_is_null =>
      let* f := toStr rt field in
      Ok {| sql := f +:+ " IS NULL"; params := VArr [] |}
  | Some Op_is_not_null =>
      let* f := toStr rt field in
      Ok {| sql := f +:+ " IS NOT NULL"; params := VArr [] |}
  | None =>
      let* o := toStr rt operator in
      Throw (Error ("Unsupported operator: " +:+ o))
  end.

(** One branch of [groupToSql]: the clause [sub.map(s => s.sql).join(sep)]
    and the parameters [sub.flatMap(s => s.params)], or nothing when
    [group[key]] is falsy. *)
Definition sqlBranch (node : jsval -> result SqlWhere) (sep : string)
    (branch : jsval) : result (list string * list jsval) :=
  if truthy branch then
    match branch with
    | VArr cs =>
        let* sub := mapM node cs in
        Ok ([join sep (map sql sub)], flat_map (fun s => spread (params s)) sub)
    | _ => Throw TypeError
    end
  else Ok ([], []).

Fixpoint groupToSql (group : jsval) {struct group} : result SqlWhere :=
  match group with
  | VUndefined | VNull => Throw TypeError
  | VObj ps =>
      let* a := reading "and" ps (sqlBranch (dispatch conditionToSql groupToSql) " AND ") in
      let* o := reading "or" ps (sqlBranch (dispatch conditionToSql groupToSql) " OR ") in
      Ok {| sql := "(" +:+ join " AND " (fst a ++ fst o) +:+ ")";
            params := VArr (snd a ++ snd o) |}
  | _ => Ok {| sql := "()"; params := VArr [] |}
  end.

Definition toSqlWhere (filter : jsval) : result SqlWhere :=
  if negb (truthy filter) then Ok {| sql := "1=1"; params := VArr [] |}
  else dispatch conditionToSql groupToSql filter.
End Compilers.

(* ================================================================== *)
(** ** mongoBuilder.ts and sqlBuilder.ts *)
(* ================================================================== *)

Definition MongoBuilder (rt : Runtime) : QueryBuilder :=
  {| build := toMongoQuery rt |}.

(** the object [{sql, params}] as the [any] the registry hands back *)
Definition sql_object (w : SqlWhere) : jsval :=
  VObj [("sql", VStr (sql w)); ("params", params w)].

Definition SqlBuilder (rt : Runtime) : QueryBuilder :=
  {| build := fun filter => let* w := toSqlWhere rt filter in Ok (sql_object w) |}.

(* ================================================================== *)
(** ** userRepository.ts: the evaluator *)
(* ================================================================== *)

(** [xs.every(f)] and [xs.some(f)], both stopping at the first decisive element *)
Section Quantifiers.
Context {A : Type} (f : A -> result bool).
Fixpoint every (xs : list A) : result bool :=
  match xs with
  | [] => Ok true
  | x :: xs' => let* b := f x in if b then every xs' else Ok false
  end.
Fixpoint some (xs : list A) : result bool :=
  match xs with
  | [] => Ok false
  | x :: xs' => let* b := f x in if b then Ok true else some xs'
  end.
End Quantifiers.

Definition indexed (xs : list jsval) : list (string * jsval) :=
  combine (map nat_str (seq 0 (length xs))) xs.

(** the own enumerable properties [Object.keys] and [for ... in] walk: the
    properties of an object, the indices of an array or of a string, nothing
    for the other values *)
Definition own_entries (v : jsval) : list (string * jsval) :=
  match v with
  | VObj ps => ps
  | VArr xs => indexed xs
  | VStr s => indexed (map (fun c => VStr (String c EmptyString)) (list_ascii_of_string s))
  | _ => []
  end.

Definition keys (v : jsval) : list string := map fst (own_entries v).

(** a record of the collection: the own properties of a [User] object *)
Definition record : Type := list (string * jsval).

Section Evaluator.
Variable rt : Runtime.

(** [a < b] *)
Definition less_than (a b : jsval) : result (option bool) :=
  match a, b with
  | VNum x, VNum y => Ok (Some (x <? y)%Z)
  | VStr x, VStr y => Ok (Some (String.ltb x y))
  | _, _ => host_less_than rt a b
  end.

(** [value > arg], [value < arg], [value >= arg], [value <= arg]: an
    undefined comparison makes each of them false *)
Definition js_gt (value arg : jsval) : result bool :=
  let* r := less_than arg value in Ok (match r with Some true => true | _ => false end).
Definition js_lt (value arg : jsval) : result bool :=
  let* r := less_than value arg in Ok (match r with Some true => true | _ => false end).
Definition js_gte (value arg : jsval) : result bool :=
  let* r := less_than value arg in Ok (match r with Some false => true | _ => false end).
Definition js_lte (value arg : jsval) : result bool :=
  let* r := less_than arg value in Ok (match r with Some false => true | _ => false end).

(** [arg.includes(value)]: [Array.prototype.includes], or
    [String.prototype.includes] on the string of [value]; anything else has
    no [includes] method *)
Definition includes (arg value : jsval) : result bool :=
  match arg with
  | VArr xs => Ok (existsb (strict_eq value) xs)
  | VStr s =>
      let* v := toStr rt value in
      Ok (match String.index 0 v s with Some _ => true | None => false end)
  | _ => Throw TypeError
  end.

(** [new RegExp(arg, condition.$options || "").test(value)] *)
Definition regex_matches (condition arg value : jsval) : result bool :=
  let options := prop "$options" (own_entries condition) in
  let* pattern := match arg with VUndefined => Ok "(?:)" | _ => toStr rt arg end in
  let* flags := toStr rt (if truthy options then options else VStr "") in
  if regexp_valid rt pattern flags then
    let* subject := toStr rt value in
    Ok (regexp_test rt pattern flags subject)
  else Throw SyntaxError.

(** One round of [for (const op in condition) switch (op) {...}]:
    [Ok true] is [break] (go on with the next key), [Ok false] is
    [return false]. *)
Definition matchesOp (value condition : jsval) (op : string) : result bool :=
  let arg := prop op (own_entries condition) in
  if (op =? "$ne")%string then Ok (negb (strict_eq value arg))
  else if (op =? "$gt")%string then js_gt value arg
  else if (op =? "$lt")%string then js_lt value arg
  else if (op =? "$gte")%string then js_gte value arg
  else if (op =? "$lte")%string then js_lte value arg
  else if (op =? "$in")%string then includes arg value
  else if (op =? "$regex")%string then regex_matches condition arg value
  else Ok false.

(** One round of [for (const field of Object.keys(query))]: a condition
    whose [typeof] is not ["object"], or a Date, is compared with [!==];
    anything else is walked with [for ... in]. *)
Definition matchesField (user : record) (query : jsval) (field : string)
    : result bool :=
  let condition := prop field (own_entries query) in
  let value := prop field user in
  if negb (typeof_object condition)
     || match condition with VDate _ => true | _ => false end
  then Ok (strict_eq value condition)
  else every (matchesOp value condition) (keys condition).

(** [query[key].every(f)] / [.some(f)]: only an array has the method *)
Definition on_array (quantifier : list jsval -> result bool) (qs : jsval)
    : result bool :=
  match qs with
  | VArr xs => quantifier xs
  | _ => Throw TypeError
  end.

Fixpoint matchesQuery (user : record) (query : jsval) {struct query}
    : result bool :=
  if negb (truthy query) || (length (keys query) =? 0)%nat then Ok true
  else
    match query with
    | VObj ps =>
        reading "$and" ps (fun and_ =>
          if truthy and_ then on_array (every (matchesQuery user)) and_
          else
            reading "$or" ps (fun or_ =>
              if truthy or_ then on_array (some (matchesQuery user)) or_
              else every (matchesField user query) (keys query)))
    | _ => every (matchesField user query) (keys query)
    end.
End Evaluator.

(* ================================================================== *)
(** ** data/userSchema.ts and data/users.ts *)
(* ================================================================== *)

Definition field_schema (nm : string) (t : FieldType) (f : bool) : FieldSchema :=
  {| name := nm; type := t; filterable := f;
     allowedOperators := None; enumValues := None |}.

Definition userSchema : list FieldSchema :=
  [ field_schema "id" TUuid true;
    field_schema "name" TString true;
    field_schema "age" TNumber true;
    {| name := "role"; type := TEnum; filterable := true;
       allowedOperators := None; enumValues := Some ["admin"; "user"; "manager"] |};
    field_schema "isActive" TBoolean true;
    field_schema "createdAt" TDate false ].

(** the three records of [users]; the Date time values are the UTC
    milliseconds of 2021-01-01, 2022-01-01 and 2023-01-01 *)
Definition user (id nm : string) (age : Z) (role : string) (isActive : bool)
    (createdAt : Z) : list (string * jsval) :=
  [ ("id", VStr id); ("name", VStr nm); ("age", VNum age); ("role", VStr role);
    ("isActive", VBool isActive); ("createdAt", VDate createdAt) ].

Definition alice := user "1" "Alice" 35 "admin" true 1609459200000.
Definition bob := user "2" "Bob" 28 "user" false 1640995200000.
Definition charlie := user "3" "Charlie" 40 "manager" true 1672531200000.
Definition users : list (list (string * jsval)) := [alice; bob; charlie].

(** [new UserRepository()]: the library over [userSchema] with the two
    builders registered under ["mongo"] and ["sql"] *)
Definition UserRepository_filterLib (rt : Runtime) : FilterLibrary :=
  registerBuilder
    (registerBuilder (new_FilterLibrary userSchema) "mongo" (MongoBuilder rt))
    "sql" (SqlBuilder rt).

(** A runtime to state closed examples with: it accepts the ISO calendar
    dates [YYYY-MM-DD] only, prints a Date as its time value, leaves the
    comparisons it is asked about undefined and accepts no regular expression.
    Every theorem below is proved for all runtimes. *)
Definition iso_date_shape (s : string) : bool :=
  let digit := between_chars "0" "9" in
  match list_ascii_of_string s with
  | [y1; y2; y3; y4; d1; m1; m2; d2; a1; a2] =>
      forallb digit [y1; y2; y3; y4; m1; m2; a1; a2]
      && Ascii.eqb d1 "-" && Ascii.eqb d2 "-"
  | _ => false
  end.

Definition sample_runtime : Runtime :=
  {| date_parses := iso_date_shape;
     date_toString := Z_str;
     host_less_than := fun _ _ => Ok None;
     regexp_valid := fun _ _ => false;
     regexp_test := fun _ _ _ => false |}.

(** the Condition [{field, operator, value}] *)
Definition Condition (field operator : string) (value : jsval) : jsval :=
  VObj [("field", VStr field); ("operator", VStr operator); ("value", value)].

(** the Condition [{field, operator}], for the operators that take no value *)
Definition Condition0 (field operator : string) : jsval :=
  VObj [("field", VStr field); ("operator", VStr operator)].

(** the Group [{and, or}] *)
Definition Group (and_ or_ : list jsval) : jsval :=
  VObj [("and", VArr and_); ("or", VArr or_)].

(* ================================================================== *)
(** ** The SQL compiler as the specification words it *)
(* ================================================================== *)

(** The specification describes the SQL output as one text in which every
    placeholder stands where its value belongs: a Condition is "one
    placeholder-bearing fragment", [between] is [field BETWEEN ? AND ?] "with
    both values pushed in order", [in] is [field IN (?, ?, ...)] "each element
    pushed in order", a Group is its "sub-fragments joined with AND or OR, the
    whole group parenthesized".  [spec_toSqlWhere] is that reading: it emits the
    statement once, as text pieces and placeholders that carry their value.
    [render] is the text a driver receives and [bound_values] the values in the
    order of their placeholders in that text.  [toSqlWhere], in contrast,
    builds the string and the parameter list separately. *)
Inductive piece : Type :=
| Text (s : string)
| Placeholder (v : jsval).

Definition render_piece (p : piece) : string :=
  match p with
  | Text s => s
  | Placeholder _ => "?"
  end.

Definition render (pcs : list piece) : string :=
  fold_right (fun p rest => render_piece p +:+ rest) "" pcs.

Definition bound_values (pcs : list piece) : list jsval :=
  flat_map (fun p => match p with Text _ => [] | Placeholder v => [v] end) pcs.

(** the fragments [pss] with [sep] between two neighbours *)
Fixpoint separated (sep : list piece) (pss : list (list piece)) : list piece :=
  match pss with
  | [] => []
  | [ps] => ps
  | ps :: rest => ps ++ sep ++ separated sep rest
  end.

Fixpoint count_char (c : ascii) (s : string) : nat :=
  match s with
  | EmptyString => 0
  | String c' s' => (if Ascii.eqb c c' then 1 else 0) + count_char c s'
  end.

Section SqlPieces.
Variable rt : Runtime.

(** specification side: a fragment [field <symbol> ?] whose placeholder
    carries [value] *)
Definition comparison (f symbol : string) (value : jsval) : list piece :=
  [Text (f +:+ symbol); Placeholder value].

(** specification side: the fragment of one Condition *)
Definition spec_conditionToSql (cond : jsval) : result (list piece) :=
  let* field := get cond "field" in
  let* operator := get cond "operator" in
  let* value := get cond "value" in
  let* f := toStr rt field in
  match operator_of operator with
  | Some Op_eq => Ok (comparison f " = " value)
  | Some Op_neq => Ok (comparison f " <> " value)
  | Some Op_gt => Ok (comparison f " > " value)
  | Some Op_lt => Ok (comparison f " < " value)
  | Some Op_gte => Ok (comparison f " >= " value)
  | Some Op_lte => Ok (comparison f " <= " value)
  | Some Op_in =>
      match value with
      | VArr vs =>
          Ok ([Text (f +:+ " IN (")]
              ++ separated [Text ", "] (map (fun v => [Placeholder v]) vs)
              ++ [Text ")"])
      | _ => Throw TypeError
      end
  | Some Op_between =>
      let* v0 := index value 0 in
      let* v1 := index value 1 in
      Ok [Text (f +:+ " BETWEEN "); Placeholder v0; Text " AND "; Placeholder v1]
  | Some Op_contains =>
      let* v := toStr rt value in
      Ok (comparison f " LIKE " (VStr ("%" +:+ v +:+ "%")))
  | Some Op_starts_with =>
      let* v := toStr rt value in
      Ok (comparison f " LIKE " (VStr (v +:+ "%")))
  | Some Op_ends_with =>
      let* v := toStr rt value in
      Ok (comparison f " LIKE " (VStr ("%" +:+ v)))
  | Some Op_is_null => Ok [Text (f +:+ " IS NULL")]
  | Some Op_is_not_null => Ok [Text (f +:+ " IS NOT NULL")]
  | None =>
      let* o := toStr rt operator in
      Throw (Error ("Unsupported operator: " +:+ o))
  end.

(** specification side: the sub-fragments of one branch joined with [sep];
    no clause for an absent branch *)
Definition spec_sqlBranch (node : jsval -> result (list piece)) (sep : string)
    (branch : jsval) : result (list (list piece)) :=
  if truthy branch then
    match branch with
    | VArr cs => let* sub := mapM node cs in Ok [separated [Text sep] sub]
    | _ => Throw TypeError
    end
  else Ok [].

(** specification side: the clauses of a Group joined with [AND], the whole
    parenthesized *)
Fixpoint spec_groupToSql (group : jsval) {struct group} : result (list piece) :=
  match group with
  | VUndefined | VNull => Throw TypeError
  | VObj ps =>
      let* a := reading "and" ps
                  (spec_sqlBranch (dispatch spec_conditionToSql spec_groupToSql) " AND ") in
      let* o := reading "or" ps
                  (spec_sqlBranch (dispatch spec_conditionToSql spec_groupToSql) " OR ") in
      Ok ([Text "("] ++ separated [Text " AND "] (a ++ o) ++ [Text ")"])
  | _ => Ok [Text "("; Text ")"]
  end.

(** specification side: [1=1] for an absent filter, the fragment of the
    root otherwise *)
Definition spec_toSqlWhere (filter : jsval) : result (list piece) :=
  if negb (truthy filter) then Ok [Text "1=1"]
  else dispatch spec_conditionToSql spec_groupToSql filter.
End SqlPieces.

(* ================================================================== *)
(** ** userRepository.ts: the two entry points *)
(* ================================================================== *)

(** [JSON.stringify] of a string: the double quote and the backslash are
    escaped, the control characters below U+0020 are written with their short
    escape or as [\u00xx], every other byte stands for itself. *)
Definition hex_digit (n : nat) : ascii :=
  nth n (list_ascii_of_string "0123456789abcdef") "0"%char.

Definition json_char (c : ascii) : string :=
  let n := nat_of_ascii c in
  if (n =? 34)%nat then "\" +:+ dq
  else if (n =? 92)%nat then "\\"
  else if (n =? 8)%nat then "\b"
  else if (n =? 9)%nat then "\t"
  else if (n =? 10)%nat then "\n"
  else if (n =? 12)%nat then "\f"
  else if (n =? 13)%nat then "\r"
  else if (n <? 32)%nat then
    "\u00" +:+ String (hex_digit (n / 16)) (String (hex_digit (n mod 16)) EmptyString)
  else String c EmptyString.

Fixpoint json_escape (s : string) : string :=
  match s with
  | EmptyString => EmptyString
  | String c s' => json_char c +:+ json_escape s'
  end.

Definition json_string (s : string) : string := dq +:+ json_escape s +:+ dq.

(** [JSON.stringify(errors)] for an array of [{path, message}] objects *)
Definition json_error (e : ValidationError) : string :=
  "{" +:+ json_string "path" +:+ ":" +:+ json_string (path e) +:+ ","
      +:+ json_string "message" +:+ ":" +:+ json_string (message e) +:+ "}".

Definition json_errors (errors : list ValidationError) : string :=
  "[" +:+ join "," (map json_error errors) +:+ "]".

(** [xs.filter(f)] where [f] may throw *)
Section FilterM.
Context {A : Type} (f : A -> result bool).
Fixpoint filterM (xs : list A) : result (list A) :=
  match xs with
  | [] => Ok []
  | x :: xs' =>
      let* keep := f x in
      let* rest := filterM xs' in
      Ok (if keep then x :: rest else rest)
  end.
End FilterM.

(** Class [UserRepository]; [collection] is the imported [users] array. *)
Section Repository.
Variable rt : Runtime.
Variable collection : list record.

Definition filterUsers (filter : jsval) : result (list record) :=
  let filterLib := UserRepository_filterLib rt in
  let* errors := validate rt filterLib filter in
  if (0 <? length errors)%nat then
    Throw (Error ("Validation failed: " +:+ json_errors errors))
  else
    let* query := buildQuery filterLib "mongo" filter in
    filterM (fun user => matchesQuery rt user query) collection.

Definition getSqlWhere (filter : jsval) : result jsval :=
  let filterLib := UserRepository_filterLib rt in
  let* errors := validate rt filterLib filter in
  if (0 <? length errors)%nat then
    Throw (Error ("Validation failed: " +:+ json_errors errors))
  else buildQuery filterLib "sql" filter.
End Repository.

(* ================================================================== *)
(** ** Shapes of filters *)
(* ================================================================== *)

(** a value whose conversion to a string cannot throw: no object with an own
    [toString] property, also inside arrays *)
Fixpoint plain (v : jsval) : bool :=
  match v with
  | VObj ps => match get_prop "toString" ps with Some _ => false | None => true end
  | VArr xs => forallb plain xs
  | _ => true
  end.

(** what an [and] or [or] entry asks of its elements *)
Definition branch_all (P : jsval -> bool) (branch : jsval) : bool :=
  match branch with
  | VArr cs => forallb P cs
  | _ => true
  end.

(** A filter every node of which is an object (or an array or a Date, which
    the library takes for an empty Group), with printable [field], [operator]
    and [value] in its Conditions: what [JSON.parse] yields for a tree of
    Conditions and Groups that has no [toString] key. *)
Fixpoint object_tree (node : jsval) : bool :=
  match node with
  | VObj ps =>
      match get_prop "field" ps with
      | Some field => plain field && plain (prop "operator" ps) && plain (prop "value" ps)
      | None =>
          reading "and" ps (branch_all object_tree)
          && reading "or" ps (branch_all object_tree)
      end
  | VArr _ | VDate _ => true
  | _ => false
  end.

(** what an [and] or [or] entry contributes to a traversal *)
Definition branch_flat {A} (f : jsval -> list A) (branch : jsval) : list A :=
  match branch with
  | VArr cs => flat_map f cs
  | _ => []
  end.

(** the Conditions of a filter, in the order in which the compilers visit
    them: a node with a [field] key, else the elements of [and], then those
    of [or] *)
Fixpoint conditions (node : jsval) : list jsval :=
  match node with
  | VObj ps =>
      match get_prop "field" ps with
      | Some _ => [node]
      | None =>
          reading "and" ps (branch_flat conditions)
          ++ reading "or" ps (branch_flat conditions)
      end
  | _ => []
  end.

(** a Condition on a filterable field of the schema with an operator the
    field allows *)
Definition exposed (lib : FilterLibrary) (cond : jsval) : Prop :=
  exists f schema op,
    get cond "field" = Ok (VStr f)
    /\ schemaMap lib !! f = Some schema
    /\ filterable schema = true
    /\ In op (allowedOps schema)
    /\ get cond "operator" = Ok (VStr (operator_name op)).




(** the path of [e] is [p] followed by some segments *)
Definition below (p : string) (e : ValidationError) : Prop :=
  exists suffix, path e = p +:+ suffix.

(** compiling [filter] with the Mongo compiler and evaluating the result on
    [user] gives [b] *)
Definition evaluates (rt : Runtime) (user : record) (filter : jsval) (b : bool) : Prop :=
  exists q, toMongoQuery rt filter = Ok q /\ matchesQuery rt user q = Ok b.

(** the nested filter of the test suite:
    [age > 30 AND (role = admin OR isActive = true)] *)
Definition nested_filter : jsval :=
  VObj [("and", VArr [Condition "age" "gt" (VNum 30);
                      VObj [("or", VArr [Condition "role" "eq" (VStr "admin");
                                         Condition "isActive" "eq" (VBool true)])]])].

(* ================================================================== *)
(** ** Notions used in the statements *)
(* ================================================================== *)

(** the case labels of the evaluator's [switch (op)], and [$options], which
    the [$regex] case reads *)
Definition operator_keys : list string :=
  ["$ne"; "$gt"; "$lt"; "$gte"; "$lte"; "$in"; "$regex"; "$options"].

(** no text piece holds a question mark *)
Definition clean (pcs : list piece) : Prop :=
  Forall (fun p => match p with
                   | Text s => count_char "?" s = 0
                   | Placeholder _ => True
                   end) pcs.

(** the output of [toSqlWhere] that corresponds to a list of pieces *)
Definition sql_of (pcs : list piece) : SqlWhere :=
  {| sql := render pcs; params := VArr (bound_values pcs) |}.

(** What a Condition that validates with no error looks like. *)
Inductive value_fits (rt : Runtime) : Operator -> jsval -> Prop :=
| fits_is_null v : value_fits rt Op_is_null v
| fits_is_not_null v : value_fits rt Op_is_not_null v
| fits_between v0 v1 : value_fits rt Op_between (VArr [v0; v1])
| fits_in vs : value_fits rt Op_in (VArr vs)
| fits_scalar op v s :
    op <> Op_is_null -> op <> Op_is_not_null -> op <> Op_between -> op <> Op_in ->
    toStr rt v = Ok s -> value_fits rt op v.

(** no field name of the schema holds a question mark *)
Definition names_clean (lib : FilterLibrary) : Prop :=
  map_Forall (fun f (_ : FieldSchema) => count_char "?" f = 0) (schemaMap lib).

(** the two compilers agree on [node] once it validates *)
Definition refines (rt : Runtime) (lib : FilterLibrary) (node : jsval) : Prop :=
  forall path,
    validateNode rt lib node path = Ok [] ->
    exists pcs,
      dispatch (spec_conditionToSql rt) (spec_groupToSql rt) node = Ok pcs
      /\ dispatch (conditionToSql rt) (groupToSql rt) node = Ok (sql_of pcs)
      /\ (names_clean lib -> clean pcs).

(* ================================================================== *)
(** ** Properties *)
(* ================================================================== *)

(** *** Values and property reads *)

(** Structural induction that also covers the values nested in arrays and
    objects. *)
Lemma jsval_nested_ind (P : jsval -> Prop) :
  P VUndefined -> P VNull -> (forall b, P (VBool b)) -> (forall n, P (VNum n)) ->
  (forall s, P (VStr s)) -> (forall t, P (VDate t)) ->
  (forall xs, Forall P xs -> P (VArr xs)) ->
  (forall ps, Forall (fun kv => P (snd kv)) ps -> P (VObj ps)) ->
  forall v, P v.
Proof.
  intros Hu Hn Hb Hz Hs Hd Ha Ho.
  fix IH 1. intros [ | | b | n | s | t | xs | ps].
  - exact Hu.
  - exact Hn.
  - apply Hb.
  - apply Hz.
  - apply Hs.
  - apply Hd.
  - apply Ha. induction xs as [|x xs IHxs]; constructor; [apply IH | exact IHxs].
  - apply Ho. induction ps as [|[k x] ps IHps]; constructor; [apply IH | exact IHps].
Qed.

Lemma reading_prop {A} k ps (f : jsval -> A) : reading k ps f = f (prop k ps).
Proof.
  unfold reading, prop.
  induction ps as [|[k' v] ps IH]; simpl; [reflexivity|].
  destruct (k =? k')%string; [reflexivity | exact IH].
Qed.


(** *** Absent filter *)

(** C7. An absent filter ([null] or [undefined]) validates with an empty
    error list, compiles with the Mongo compiler to the empty object, which
    the evaluator accepts for every record, and compiles with the SQL compiler
    to exactly [{sql: "1=1", params: []}]. *)
Theorem absent_filter_matches_everything (rt : Runtime) (lib : FilterLibrary)
    (user : record) :
  Forall (fun filter =>
            validate rt lib filter = Ok []
            /\ toMongoQuery rt filter = Ok (VObj [])
            /\ (forall q, toMongoQuery rt filter = Ok q -> matchesQuery rt user q = Ok true)
            /\ toSqlWhere rt filter = Ok {| sql := "1=1"; params := VArr [] |})
         [VNull; VUndefined].
Proof.
  repeat constructor; intros q Hq; simpl in Hq; injection Hq as <-; reflexivity.
Qed.

(** *** The [between] example of the test suite *)

(** C8. Under [userSchema], [{field: "age", operator: "between", value: [20, 30]}]
    validates with no error and the SQL compiler yields exactly
    [{sql: "age BETWEEN ? AND ?", params: [20, 30]}]. *)
Theorem between_age_example (rt : Runtime) :
  let filter := Condition "age" "between" (VArr [VNum 20; VNum 30]) in
  validate rt (new_FilterLibrary userSchema) filter = Ok []
  /\ toSqlWhere rt filter
     = Ok {| sql := "age BETWEEN ? AND ?"; params := VArr [VNum 20; VNum 30] |}.
Proof.
  split; vm_compute; reflexivity.
Qed.

(** *** The builder registry *)

(** C9. [buildQuery] on a name that is not in the registry throws the error
    naming it and returns nothing; on a registered name it returns what that
    builder's [build] returns on the filter. *)
Theorem buildQuery_by_name (lib : FilterLibrary) (nm : string) (filter : jsval) :
  (builder lib !! nm = None ->
   buildQuery lib nm filter
   = Throw (Error ("Query builder " +:+ dq +:+ nm +:+ dq +:+ " is not registered")))
  /\ (forall b, builder lib !! nm = Some b ->
      buildQuery lib nm filter = build b filter).
Proof.
  unfold buildQuery. split.
  - intros ->. reflexivity.
  - intros b ->. reflexivity.
Qed.

Lemma buildQuery_by_name_witness :
  let lib := UserRepository_filterLib sample_runtime in
  let filter := Condition "age" "gt" (VNum 30) in
  buildQuery lib "prisma" filter
  = Throw (Error ("Query builder " +:+ dq +:+ "prisma" +:+ dq +:+ " is not registered"))
  /\ buildQuery lib "sql" filter = build (SqlBuilder sample_runtime) filter
  /\ buildQuery lib "mongo" filter = build (MongoBuilder sample_runtime) filter.
Proof.
  intros lib filter.
  split; [|split].
  - apply (proj1 (buildQuery_by_name lib "prisma" filter)). reflexivity.
  - apply (proj2 (buildQuery_by_name lib "sql" filter)). reflexivity.
  - apply (proj2 (buildQuery_by_name lib "mongo" filter)). reflexivity.
Defined.

(** Registering a builder makes its name resolve to it and leaves the other
    names as they were. *)
Lemma buildQuery_registerBuilder lib nm b filter :
  buildQuery (registerBuilder lib nm b) nm filter = build b filter.
Proof.
  unfold buildQuery, registerBuilder; simpl.
  rewrite lookup_insert_eq. reflexivity.
Qed.

Lemma buildQuery_registerBuilder_other lib nm nm' b filter :
  nm <> nm' ->
  buildQuery (registerBuilder lib nm b) nm' filter = buildQuery lib nm' filter.
Proof.
  intros Hne. unfold buildQuery, registerBuilder; simpl.
  rewrite lookup_insert_ne by exact Hne. reflexivity.
Qed.

Lemma buildQuery_unregistered schema nm filter :
  buildQuery (new_FilterLibrary schema) nm filter
  = Throw (Error ("Query builder " +:+ dq +:+ nm +:+ dq +:+ " is not registered")).
Proof.
  unfold buildQuery, new_FilterLibrary; simpl.
  rewrite lookup_empty. reflexivity.
Qed.

(** *** Validation of malformed trees *)

(** C4, evaluated on the code.  A Group whose [and] (or [or]) array holds
    [null] makes [validate] throw: [validateNode] applies ["field" in node] to
    the element.  The same happens for a filter that is a non-empty string or
    a non-zero number. *)
Theorem validate_throws_on_null_element (rt : Runtime) (lib : FilterLibrary) :
  validate rt lib (VObj [("and", VArr [VNull])]) = Throw TypeError
  /\ validate rt lib (VObj [("or", VArr [VNull])]) = Throw TypeError
  /\ validate rt lib (VNum 5) = Throw TypeError
  /\ validate rt lib (VStr "age") = Throw TypeError.
Proof.
  split; [|split; [|split]]; reflexivity.
Qed.

(** *** The evaluator on [is_null] *)

(** C3, evaluated on the code.  [{field: "name", operator: "is_null"}] is a
    valid filter under [userSchema] and compiles to [{name: null}], but the
    evaluator accepts that query for every record, also for one whose [name] is
    the string ["Alice"]: [typeof null] is ["object"], so the query value is
    walked with [for ... in], which has nothing to walk. *)
Theorem is_null_query_matches_every_record (rt : Runtime) (user : record) :
  validate rt (new_FilterLibrary userSchema) (Condition0 "name" "is_null") = Ok []
  /\ toMongoQuery rt (Condition0 "name" "is_null") = Ok (VObj [("name", VNull)])
  /\ matchesQuery rt user (VObj [("name", VNull)]) = Ok true
  /\ prop "name" alice = VStr "Alice"
  /\ strict_eq (prop "name" alice) VNull = false.
Proof.
  split; [vm_compute; reflexivity|].
  split; [|split; [|split]]; reflexivity.
Qed.

(** *** The evaluator on a query with both [$and] and [$or] *)

(** C2, evaluated on the code.  The Group
    [{and: [isActive = true], or: [age > 100]}] is valid and compiles to an
    object with both keys; the evaluator accepts Alice (active, 35) although no
    sub-query under [$or] matches her: it returns from the [$and] branch and
    never looks at [$or]. *)
Theorem and_or_query_ignores_or (rt : Runtime) :
  let filter := Group [Condition "isActive" "eq" (VBool true)]
                      [Condition "age" "gt" (VNum 100)] in
  let under_or := [VObj [("age", VObj [("$gt", VNum 100)])]] in
  let query := VObj [("$and", VArr [VObj [("isActive", VBool true)]]);
                     ("$or", VArr under_or)] in
  validate rt (new_FilterLibrary userSchema) filter = Ok []
  /\ toMongoQuery rt filter = Ok query
  /\ matchesQuery rt alice query = Ok true
  /\ some (matchesQuery rt alice) under_or = Ok false.
Proof.
  split; [vm_compute; reflexivity|].
  split; [|split]; reflexivity.
Qed.

(** What the evaluator computes on any query object whose [$and] is an
    array: the conjunction of the sub-queries under [$and], whatever else the
    object holds. *)
Lemma matchesQuery_and rt user ps qs :
  prop "$and" ps = VArr qs ->
  matchesQuery rt user (VObj ps) = every (matchesQuery rt user) qs.
Proof.
  intros Hand.
  destruct ps as [|kv ps']; [discriminate|].
  change (matchesQuery rt user (VObj (kv :: ps')))
    with (reading "$and" (kv :: ps') (fun and_ =>
            if truthy and_ then on_array (every (matchesQuery rt user)) and_
            else
              reading "$or" (kv :: ps') (fun or_ =>
                if truthy or_ then on_array (some (matchesQuery rt user)) or_
                else every (matchesField rt user (VObj (kv :: ps')))
                           (keys (VObj (kv :: ps')))))).
  rewrite reading_prop, Hand. reflexivity.
Qed.

Lemma prop_cons k k' v ps :
  prop k ((k', v) :: ps) = if (k =? k')%string then v else prop k ps.
Proof. unfold prop; simpl. destruct (k =? k')%string; reflexivity. Qed.

Lemma prop_here k v ps : prop k ((k, v) :: ps) = v.
Proof. rewrite prop_cons, String.eqb_refl. reflexivity. Qed.

Lemma prop_later k k' v ps : k <> k' -> prop k ((k', v) :: ps) = prop k ps.
Proof. intros Hne. rewrite prop_cons. apply String.eqb_neq in Hne. rewrite Hne. reflexivity. Qed.

(** The body of [matchesQuery], with the property reads written as [prop]. *)
Lemma matchesQuery_unfold rt user query :
  matchesQuery rt user query =
  if negb (truthy query) || (length (keys query) =? 0)%nat then Ok true
  else
    match query with
    | VObj ps =>
        if truthy (prop "$and" ps)
        then on_array (every (matchesQuery rt user)) (prop "$and" ps)
        else if truthy (prop "$or" ps)
        then on_array (some (matchesQuery rt user)) (prop "$or" ps)
        else every (matchesField rt user query) (keys query)
    | _ => every (matchesField rt user query) (keys query)
    end.
Proof.
  destruct query as [ | | b | n | s | t | xs | ps]; try reflexivity.
  cbn [matchesQuery].
  rewrite reading_prop. cbv beta.
  rewrite reading_prop. reflexivity.
Qed.

Lemma every_not_true {A} (f : A -> result bool) x xs :
  In x xs -> f x <> Ok true -> every f xs <> Ok true.
Proof.
  induction xs as [|y ys IH]; simpl; [tauto|].
  intros [-> | Hin] Hx.
  - destruct (f x) as [[|]|e]; simpl; [congruence | discriminate | discriminate].
  - destruct (f y) as [[|]|e]; simpl; try discriminate. apply IH; assumption.
Qed.

Lemma matchesOp_default rt value condition op :
  ~ In op operator_keys -> matchesOp rt value condition op = Ok false.
Proof.
  intros Hop. unfold matchesOp.
  repeat match goal with
  | |- context [(op =? ?k)%string] =>
      let E := fresh "E" in
      destruct (String.eqb_spec op k) as [E|E];
      [exfalso; apply Hop; rewrite E; simpl; tauto|]
  end.
  reflexivity.
Qed.

(** *** The evaluator on an unrecognised operator key *)

(** C5 as stated fails on the code: the query [{name: {$foo: 1}}], which the
    Mongo compiler emits for [{field: "name", operator: "eq", value: {$foo: 1}}],
    makes the evaluator return [false]; nothing is thrown. *)
Lemma unknown_operator_returns_false_example :
  toMongoQuery sample_runtime (Condition "name" "eq" (VObj [("$foo", VNum 1)]))
  = Ok (VObj [("name", VObj [("$foo", VNum 1)])])
  /\ matchesQuery sample_runtime alice (VObj [("name", VObj [("$foo", VNum 1)])])
     = Ok false.
Proof.
  split; reflexivity.
Qed.

(** C5, amended.  An operator key outside [$ne, $gt, $lt, $gte, $lte, $in,
    $regex, $options] ends the walk with the ordinary result [false]:
    the [switch] returns [false] on it; a query with one field whose operator
    object starts with such a key evaluates to [false]; and a query object
    (without truthy [$and] or [$or]) that has such a key anywhere in one of its
    operator objects is accepted for no record. *)
Theorem unknown_operator_is_no_match (rt : Runtime) (user : record) (op : string) :
  ~ In op operator_keys ->
  (forall value condition, matchesOp rt value condition op = Ok false)
  /\ (forall field arg rest,
        field <> "$and" -> field <> "$or" ->
        matchesQuery rt user (VObj [(field, VObj ((op, arg) :: rest))]) = Ok false)
  /\ (forall ps field ops,
        truthy (prop "$and" ps) = false -> truthy (prop "$or" ps) = false ->
        In field (map fst ps) -> prop field ps = VObj ops -> In op (map fst ops) ->
        matchesQuery rt user (VObj ps) <> Ok true).
Proof.
  intros Hop. split; [|split].
  - intros value condition. apply matchesOp_default, Hop.
  - intros field arg rest Hand Hor.
    rewrite matchesQuery_unfold.
    rewrite !prop_later by congruence.
    change (prop "$and" []) with VUndefined. change (prop "$or" []) with VUndefined.
    cbn [truthy negb orb keys own_entries map fst length Nat.eqb every].
    unfold matchesField. cbn [own_entries]. rewrite prop_here.
    cbn [typeof_object negb orb keys own_entries map fst every].
    rewrite matchesOp_default by exact Hop. reflexivity.
  - intros ps field ops Hand Hor Hfield Hcond Hin.
    rewrite matchesQuery_unfold, Hand, Hor.
    destruct ps as [|kv ps']; [destruct Hfield|].
    change (negb (truthy (VObj (kv :: ps'))) || (length (keys (VObj (kv :: ps'))) =? 0)%nat)
      with false.
    cbv iota.
    apply (every_not_true _ field); [exact Hfield|].
    unfold matchesField. cbn [own_entries]. rewrite Hcond.
    cbn [typeof_object negb orb].
    apply (every_not_true _ op); [exact Hin|].
    rewrite matchesOp_default by exact Hop. discriminate.
Qed.

Lemma unknown_operator_is_no_match_witness :
  ~ In "$foo" operator_keys
  /\ matchesOp sample_runtime (VStr "Alice") (VObj [("$foo", VNum 1)]) "$foo" = Ok false
  /\ matchesQuery sample_runtime alice (VObj [("name", VObj [("$foo", VNum 1)])])
     = Ok false.
Proof.
  assert (H : ~ In "$foo" operator_keys).
  { unfold operator_keys. simpl. intros [E|[E|[E|[E|[E|[E|[E|[E|[]]]]]]]]]; discriminate E. }
  destruct (unknown_operator_is_no_match sample_runtime alice "$foo" H) as (H1 & H2 & _).
  split; [exact H | split; [apply H1 | apply H2; discriminate]].
Defined.

(** The key [$options], which the compiler writes next to [$regex], is not
    a case label of the evaluator's [switch] either: a query compiled from
    [contains], [starts_with] or [ends_with] is accepted for no record. *)
Lemma regex_query_matches_no_record rt user field pattern :
  field <> "$and" -> field <> "$or" ->
  matchesQuery rt user
    (VObj [(field, VObj [("$regex", pattern); ("$options", VStr "i")])])
  <> Ok true.
Proof.
  intros Hand Hor.
  rewrite matchesQuery_unfold.
  rewrite !prop_later by congruence.
  change (prop "$and" []) with VUndefined. change (prop "$or" []) with VUndefined.
  cbn [truthy negb orb keys own_entries map fst length Nat.eqb].
  apply (every_not_true _ field); [left; reflexivity|].
  unfold matchesField. cbn [own_entries]. rewrite prop_here.
  cbn [typeof_object negb orb].
  apply (every_not_true _ "$options"); [right; left; reflexivity | discriminate].
Qed.

(** *** The order of the checks on a Condition *)

Lemma validateNode_condition rt lib ps v path :
  get_prop "field" ps = Some v ->
  validateNode rt lib (VObj ps) path = validateCondition rt lib (VObj ps) path.
Proof.
  intros Hfield. cbn [validateNode field_in bind]. rewrite Hfield. reflexivity.
Qed.

Lemma validateNode_group rt lib ps path :
  get_prop "field" ps = None ->
  validateNode rt lib (VObj ps) path
  = let* errors := validateBranch (validateNode rt lib) "and" path (prop "and" ps) in
    let* more := validateBranch (validateNode rt lib) "or" path (prop "or" ps) in
    Ok (errors ++ more).
Proof.
  intros Hfield. cbn [validateNode field_in bind]. rewrite Hfield.
  cbn [validateGroup]. rewrite !reading_prop. reflexivity.
Qed.

(** C6. For a Condition on field [f]: when [f] is not in the schema, or is
    in it but not filterable, validation of the condition yields exactly that
    one error, whatever the operator and the value are; when [f] is filterable
    and the operator is not allowed, the operator error comes first and is
    followed by whatever [validateValue] reports for the same condition.  Under
    [userSchema], [{field: "age", operator: "contains", value: "x"}] gets both
    an operator error and a value error. *)
Theorem validateCondition_checks_in_order (rt : Runtime) (lib : FilterLibrary)
    (ps : list (string * jsval)) (f : string) (path : string) :
  get_prop "field" ps = Some (VStr f) ->
  (schemaMap lib !! f = None ->
   validateNode rt lib (VObj ps) path
   = Ok [ {| path := path;
             message := "Field " +:+ dq +:+ f +:+ dq +:+ " is not allowed for filtering" |} ])
  /\ (forall schema,
        schemaMap lib !! f = Some schema -> filterable schema = false ->
        validateNode rt lib (VObj ps) path
        = Ok [ {| path := path;
                  message := "Field " +:+ dq +:+ f +:+ dq +:+ " is not filterable" |} ])
  /\ (forall schema o,
        schemaMap lib !! f = Some schema -> filterable schema = true ->
        includes_operator (allowedOps schema) (prop "operator" ps) = false ->
        toStr rt (prop "operator" ps) = Ok o ->
        validateNode rt lib (VObj ps) path
        = let* more := validateValue rt (VObj ps) (type schema) path schema in
          Ok ({| path := path;
                 message := "Operator " +:+ dq +:+ o +:+ dq +:+
                            " is not allowed for field " +:+ dq +:+ f +:+ dq |} :: more))
  /\ validate rt (new_FilterLibrary userSchema) (Condition "age" "contains" (VStr "x"))
     = Ok [ {| path := "<root>";
               message := "Operator " +:+ dq +:+ "contains" +:+ dq +:+
                          " is not allowed for field " +:+ dq +:+ "age" +:+ dq |};
            {| path := "<root>.value"; message := "must be a number" |} ].
Proof.
  intros Hfield.
  assert (Hcond : validateNode rt lib (VObj ps) path
                  = validateCondition rt lib (VObj ps) path)
    by (eapply validateNode_condition; exact Hfield).
  assert (Hf : prop "field" ps = VStr f) by (unfold prop; rewrite Hfield; reflexivity).
  rewrite Hcond. unfold validateCondition. cbn [get bind]. rewrite Hf.
  split; [|split; [|split]].
  - intros ->. reflexivity.
  - intros schema -> ->. reflexivity.
  - intros schema o -> -> Hop Ho. cbn [negb]. rewrite Hop, Ho. cbn [bind toStr].
    destruct (validateValue rt (VObj ps) (type schema) path schema); reflexivity.
  - vm_compute. reflexivity.
Qed.

Lemma validateCondition_checks_in_order_witness :
  let lib := new_FilterLibrary userSchema in
  validate sample_runtime lib (Condition "password" "eq" (VStr "secret"))
  = Ok [ {| path := "<root>";
            message := "Field " +:+ dq +:+ "password" +:+ dq +:+ " is not allowed for filtering" |} ]
  /\ validate sample_runtime lib (Condition "createdAt" "between" (VNum 1))
     = Ok [ {| path := "<root>";
               message := "Field " +:+ dq +:+ "createdAt" +:+ dq +:+ " is not filterable" |} ]
  /\ validate sample_runtime lib (Condition "age" "unknown" (VNum 25))
     = Ok [ {| path := "<root>";
               message := "Operator " +:+ dq +:+ "unknown" +:+ dq +:+
                          " is not allowed for field " +:+ dq +:+ "age" +:+ dq |} ].
Proof.
  intros lib. unfold validate, Condition. cbn [truthy negb].
  split; [|split].
  - apply (proj1 (validateCondition_checks_in_order sample_runtime lib
                    [("field", VStr "password"); ("operator", VStr "eq");
                     ("value", VStr "secret")]
                    "password" "<root>" eq_refl)).
    vm_compute. reflexivity.
  - apply (proj1 (proj2 (validateCondition_checks_in_order sample_runtime lib
                           [("field", VStr "createdAt"); ("operator", VStr "between");
                            ("value", VNum 1)]
                           "createdAt" "<root>" eq_refl))
                 (field_schema "createdAt" TDate false)).
    + vm_compute. reflexivity.
    + reflexivity.
  - rewrite (proj1 (proj2 (proj2 (validateCondition_checks_in_order sample_runtime lib
                           [("field", VStr "age"); ("operator", VStr "unknown");
                            ("value", VNum 25)]
                           "age" "<root>" eq_refl)))
                   (field_schema "age" TNumber true) "unknown").
    + reflexivity.
    + vm_compute. reflexivity.
    + reflexivity.
    + reflexivity.
    + reflexivity.
Defined.

(** *** [in] with an empty array *)

Lemma includes_operator_In ops op :
  In op ops -> includes_operator ops (VStr (operator_name op)) = true.
Proof.
  intros Hin. unfold includes_operator. apply existsb_exists.
  exists op. split; [exact Hin | apply String.eqb_refl].
Qed.

(** C10. For a filterable field [f] whose allowed operators include [in],
    [{field: f, operator: "in", value: []}] validates with no error, the SQL
    compiler emits [f IN ()] with no parameter, the Mongo compiler emits
    [{f: {$in: []}}], and the evaluator accepts that query for no record (it
    answers [false], unless [f] is ["$and"] or ["$or"], where it throws). *)
Theorem empty_in_list (rt : Runtime) (lib : FilterLibrary) (f : string)
    (schema : FieldSchema) (user : record) :
  schemaMap lib !! f = Some schema ->
  filterable schema = true ->
  In Op_in (allowedOps schema) ->
  let filter := Condition f "in" (VArr []) in
  let query := VObj [(f, VObj [("$in", VArr [])])] in
  validate rt lib filter = Ok []
  /\ toSqlWhere rt filter = Ok {| sql := f +:+ " IN ()"; params := VArr [] |}
  /\ toMongoQuery rt filter = Ok query
  /\ matchesQuery rt user query <> Ok true
  /\ (f <> "$and" -> f <> "$or" -> matchesQuery rt user query = Ok false).
Proof.
  intros Hschema Hfilterable Hin filter query.
  assert (Hmatch : f <> "$and" -> f <> "$or" -> matchesQuery rt user query = Ok false).
  { intros Hand Hor. unfold query.
    rewrite matchesQuery_unfold.
    rewrite !prop_later by congruence.
    change (prop "$and" []) with VUndefined. change (prop "$or" []) with VUndefined.
    cbn [truthy negb orb keys own_entries map fst length Nat.eqb every].
    unfold matchesField. cbn [own_entries]. rewrite prop_here. reflexivity. }
  split; [|split; [|split; [|split]]].
  - unfold validate, filter, Condition. cbn [truthy negb].
    rewrite (validateNode_condition _ _ _ (VStr f)) by reflexivity.
    unfold validateCondition. cbn [get bind].
    change (prop "field" _) with (VStr f). cbv iota.
    rewrite Hschema, Hfilterable. cbn [negb].
    change (prop "operator" _) with (VStr (operator_name Op_in)).
    rewrite (includes_operator_In _ _ Hin). reflexivity.
  - reflexivity.
  - reflexivity.
  - destruct (String.eqb_spec f "$and") as [->|Hand]; [discriminate|].
    destruct (String.eqb_spec f "$or") as [->|Hor]; [discriminate|].
    rewrite Hmatch by assumption. discriminate.
  - exact Hmatch.
Qed.

Lemma empty_in_list_witness :
  let lib := new_FilterLibrary userSchema in
  let filter := Condition "role" "in" (VArr []) in
  validate sample_runtime lib filter = Ok []
  /\ toSqlWhere sample_runtime filter = Ok {| sql := "role IN ()"; params := VArr [] |}
  /\ Forall (fun user =>
       matchesQuery sample_runtime user (VObj [("role", VObj [("$in", VArr [])])])
       = Ok false) users.
Proof.
  intros lib filter.
  assert (Hrole : schemaMap lib !! "role"
                  = Some {| name := "role"; type := TEnum; filterable := true;
                            allowedOperators := None;
                            enumValues := Some ["admin"; "user"; "manager"] |})
    by (vm_compute; reflexivity).
  assert (Hin : In Op_in (allowedOps {| name := "role"; type := TEnum; filterable := true;
                            allowedOperators := None;
                            enumValues := Some ["admin"; "user"; "manager"] |}))
    by (simpl; tauto).
  split; [|split].
  - exact (proj1 (empty_in_list sample_runtime lib "role" _ alice Hrole eq_refl Hin)).
  - exact (proj1 (proj2 (empty_in_list sample_runtime lib "role" _ alice Hrole eq_refl Hin))).
  - repeat constructor;
      match goal with
      | |- matchesQuery _ ?u _ = _ =>
          apply (proj2 (proj2 (proj2 (proj2
                   (empty_in_list sample_runtime lib "role" _ u Hrole eq_refl Hin)))));
          discriminate
      end.
Defined.

(** *** Parameters follow the placeholders *)

Lemma append_cons c s t : String c s +:+ t = String c (s +:+ t).
Proof. reflexivity. Qed.

Lemma append_nil_r s : s +:+ "" = s.
Proof.
  induction s as [|c s IH]; [reflexivity|].
  rewrite append_cons, IH. reflexivity.
Qed.

Lemma append_assoc a b c : (a +:+ b) +:+ c = a +:+ (b +:+ c).
Proof.
  induction a as [|x a IH]; [reflexivity|].
  rewrite !append_cons, IH. reflexivity.
Qed.

Lemma count_char_append c a b :
  count_char c (a +:+ b) = count_char c a + count_char c b.
Proof.
  induction a as [|x a IH]; [reflexivity|].
  rewrite append_cons. cbn [count_char]. rewrite IH. lia.
Qed.

Lemma render_cons p pcs : render (p :: pcs) = render_piece p +:+ render pcs.
Proof. reflexivity. Qed.

Lemma render_app xs ys : render (xs ++ ys) = render xs +:+ render ys.
Proof.
  induction xs as [|p xs IH]; [reflexivity|].
  rewrite <- app_comm_cons, !render_cons, IH, append_assoc. reflexivity.
Qed.

Lemma bound_values_app xs ys :
  bound_values (xs ++ ys) = bound_values xs ++ bound_values ys.
Proof. unfold bound_values. apply flat_map_app. Qed.

Lemma render_separated sep pss :
  render (separated [Text sep] pss) = join sep (map render pss).
Proof.
  induction pss as [|ps [|qs rest] IH]; [reflexivity | reflexivity |].
  change (separated [Text sep] (ps :: qs :: rest))
    with (ps ++ [Text sep] ++ separated [Text sep] (qs :: rest)).
  rewrite !render_app, IH.
  change (render [Text sep]) with (sep +:+ ""). rewrite append_nil_r.
  reflexivity.
Qed.

Lemma bound_values_separated sep pss :
  bound_values (separated [Text sep] pss) = concat (map bound_values pss).
Proof.
  induction pss as [|ps [|qs rest] IH].
  - reflexivity.
  - cbn [separated map concat]. rewrite app_nil_r. reflexivity.
  - change (separated [Text sep] (ps :: qs :: rest))
      with (ps ++ [Text sep] ++ separated [Text sep] (qs :: rest)).
    rewrite !bound_values_app, IH. reflexivity.
Qed.

Lemma clean_app xs ys : clean xs -> clean ys -> clean (xs ++ ys).
Proof. unfold clean. intros Hx Hy. apply Forall_app. split; assumption. Qed.

Lemma clean_separated sep pss :
  count_char "?" sep = 0 -> Forall clean pss -> clean (separated [Text sep] pss).
Proof.
  intros Hsep Hall.
  induction pss as [|ps [|qs rest] IH].
  - constructor.
  - inversion Hall; assumption.
  - change (separated [Text sep] (ps :: qs :: rest))
      with (ps ++ [Text sep] ++ separated [Text sep] (qs :: rest)).
    inversion Hall as [|? ? Hps Hrest]; subst.
    apply clean_app; [exact Hps|].
    apply clean_app; [repeat constructor; exact Hsep | apply IH, Hrest].
Qed.

(** In a rendered statement whose text pieces are free of question marks, the
    question marks are the placeholders. *)
Lemma count_render pcs :
  clean pcs -> count_char "?" (render pcs) = length (bound_values pcs).
Proof.
  induction 1 as [|[s|v] pcs Hp _ IH].
  - reflexivity.
  - rewrite render_cons, count_char_append, IH.
    cbn [render_piece]. rewrite Hp. reflexivity.
  - rewrite render_cons, count_char_append, IH. reflexivity.
Qed.

(** Results of the error monad. *)
Lemma bind_Ok {A B} (m : result A) (k : A -> result B) b :
  (let* x := m in k x) = Ok b -> exists a, m = Ok a /\ k a = Ok b.
Proof. destruct m as [a|e]; [exists a; split; [reflexivity | assumption] | discriminate]. Qed.

Lemma collect_from_nil {A E} (f : A -> nat -> result (list E)) xs i :
  collect_from f i xs = Ok [] -> Forall (fun x => exists j, f x j = Ok []) xs.
Proof.
  revert i. induction xs as [|x xs IH]; intros i H; [constructor|].
  cbn [collect_from] in H.
  apply bind_Ok in H as (e & He & H).
  apply bind_Ok in H as (es & Hes & H).
  injection H as H. apply List.app_eq_nil in H as [-> ->].
  constructor; [exists i; exact He | eapply IH; exact Hes].
Qed.

Lemma get_prop_In k ps v : get_prop k ps = Some v -> In (k, v) ps.
Proof.
  induction ps as [|[k' v'] ps IH]; cbn [get_prop]; [discriminate|].
  destruct (String.eqb_spec k k') as [->|Hne].
  - intros [= ->]. left. reflexivity.
  - intros H. right. apply IH, H.
Qed.

Lemma prop_array_In k ps cs : prop k ps = VArr cs -> In (k, VArr cs) ps.
Proof.
  unfold prop. destruct (get_prop k ps) as [v|] eqn:E; [|discriminate].
  intros ->. apply get_prop_In, E.
Qed.

Lemma operator_of_name op : operator_of (VStr (operator_name op)) = Some op.
Proof. destruct op; reflexivity. Qed.

Lemma includes_operator_true ops operator :
  includes_operator ops operator = true ->
  exists op, In op ops /\ operator = VStr (operator_name op).
Proof.
  destruct operator as [ | | b | n | s | t | xs | ps]; try discriminate.
  cbn [includes_operator]. intros H.
  apply existsb_exists in H as (op & Hin & Heq).
  apply String.eqb_eq in Heq. exists op. split; [exact Hin | rewrite Heq; reflexivity].
Qed.

Lemma checkType_Ok_prints rt value type path schema :
  checkType rt value type path schema = Ok [] -> exists s, toStr rt value = Ok s.
Proof.
  destruct type; cbn [checkType]; intros H.
  - destruct value; try discriminate. eexists; reflexivity.
  - destruct value; try discriminate. eexists; reflexivity.
  - destruct value as [ | | [|] | | | | | ]; try discriminate; eexists; reflexivity.
  - apply bind_Ok in H as (s & Hs & _). exists s. exact Hs.
  - destruct value; try discriminate. eexists; reflexivity.
  - destruct value; try discriminate. eexists; reflexivity.
Qed.

Lemma validateValue_Ok_fits rt ps op type path schema :
  prop "operator" ps = VStr (operator_name op) ->
  validateValue rt (VObj ps) type path schema = Ok [] ->
  value_fits rt op (prop "value" ps).
Proof.
  intros Hop. unfold validateValue. cbn [get bind]. rewrite Hop.
  destruct op;
    change (is_op (VStr (operator_name ?o)) ?s) with (String.eqb (operator_name o) s);
    cbn [operator_name];
    repeat match goal with
    | |- context [String.eqb ?a ?b] =>
        let r := eval vm_compute in (String.eqb a b) in
        change (String.eqb a b) with r
    end;
    cbn [orb]; cbv iota; intros H;
    try (constructor; fail);
    try (destruct (prop "value" ps) as [ | | b | n | s | t | xs | qs];
         try discriminate H; constructor; fail).
  all: try (destruct (strict_eq (prop "value" ps) VUndefined); [discriminate H|];
            apply checkType_Ok_prints in H as (s & Hs);
            apply (fits_scalar rt _ _ s); [discriminate.. | exact Hs]).
  destruct (prop "value" ps) as [ | | b | n | s | t | xs | qs]; try discriminate H.
  destruct xs as [|v0 [|v1 [|v2 rest]]]; try discriminate H. constructor.
Qed.

Lemma validateCondition_Ok rt lib ps path :
  validateCondition rt lib (VObj ps) path = Ok [] ->
  exists f schema op,
    prop "field" ps = VStr f
    /\ schemaMap lib !! f = Some schema
    /\ prop "operator" ps = VStr (operator_name op)
    /\ value_fits rt op (prop "value" ps).
Proof.
  unfold validateCondition. cbn [get bind].
  destruct (match prop "field" ps with
            | VStr f => schemaMap lib !! f
            | _ => None
            end) as [schema|] eqn:Hschema.
  2: { intros H. apply bind_Ok in H as (s & _ & H). discriminate H. }
  destruct (prop "field" ps) as [ | | b | n | f | t | xs | qs]; try discriminate Hschema.
  destruct (filterable schema); cbn [negb].
  2: { intros H. apply bind_Ok in H as (s & _ & H). discriminate H. }
  intros H.
  apply bind_Ok in H as (errors & Herrors & H).
  apply bind_Ok in H as (more & Hmore & H).
  injection H as H. apply List.app_eq_nil in H as [-> ->].
  destruct (includes_operator (allowedOps schema) (prop "operator" ps)) eqn:Hinc.
  2: { apply bind_Ok in Herrors as (o & _ & Herrors).
       apply bind_Ok in Herrors as (s & _ & Herrors). discriminate Herrors. }
  apply includes_operator_true in Hinc as (op & _ & Hop).
  exists f, schema, op. repeat split; try assumption; try reflexivity.
  eapply validateValue_Ok_fits; eassumption.
Qed.

Lemma bound_values_placeholders vs :
  concat (map (fun v => bound_values [Placeholder v]) vs) = vs.
Proof. induction vs as [|v vs IH]; [reflexivity|]. cbn. f_equal. exact IH. Qed.

Lemma clean_placeholders vs : Forall clean (map (fun v => [Placeholder v]) vs).
Proof. induction vs; constructor; [repeat constructor | assumption]. Qed.

Ltac normalize_sql :=
  unfold sql_of, comparison;
  cbn [render fold_right render_piece bound_values flat_map app];
  rewrite ?append_nil_r, ?append_assoc; reflexivity.

Ltac clean_text Hf :=
  intros Hf; unfold comparison; repeat constructor;
  rewrite count_char_append, Hf; reflexivity.

Lemma condition_pieces rt ps f op :
  prop "field" ps = VStr f ->
  prop "operator" ps = VStr (operator_name op) ->
  value_fits rt op (prop "value" ps) ->
  exists pcs,
    spec_conditionToSql rt (VObj ps) = Ok pcs
    /\ conditionToSql rt (VObj ps) = Ok (sql_of pcs)
    /\ (count_char "?" f = 0 -> clean pcs).
Proof.
  intros Hfield Hop Hfits.
  unfold spec_conditionToSql, conditionToSql. cbn [get bind].
  rewrite Hfield, Hop, operator_of_name. cbn [toStr bind].
  remember (prop "value" ps) as value eqn:Hvalue. clear Hvalue Hop.
  destruct Hfits as [v | v | v0 v1 | vs | op v s N1 N2 N3 N4 Hs].
  - eexists. split; [reflexivity|]. split; [normalize_sql | clean_text Hf].
  - eexists. split; [reflexivity|]. split; [normalize_sql | clean_text Hf].
  - cbn [index bind nth].
    eexists. split; [reflexivity|]. split; [normalize_sql | clean_text Hf].
  - eexists. split; [reflexivity|]. split.
    + unfold sql_of. f_equal. f_equal.
      * rewrite !render_app, render_separated, map_map.
        change (render [Text ")"]) with (")" +:+ "").
        change (render [Text (f +:+ " IN (")]) with ((f +:+ " IN (") +:+ "").
        rewrite !append_nil_r, append_assoc. reflexivity.
      * rewrite !bound_values_app, bound_values_separated, map_map.
        rewrite bound_values_placeholders. cbn. rewrite app_nil_r. reflexivity.
    + intros Hf. apply clean_app; [|apply clean_app].
      * repeat constructor. rewrite count_char_append, Hf. reflexivity.
      * apply clean_separated; [reflexivity | apply clean_placeholders].
      * repeat constructor.
  - destruct op; try congruence; rewrite ?Hs; cbn [bind];
      (eexists; split; [reflexivity|]; split; [normalize_sql | clean_text Hf]).
Qed.

Section ParamsFollowPlaceholders.
Variable rt : Runtime.
Variable lib : FilterLibrary.

Lemma flat_map_params pss :
  flat_map (fun s => spread (params s)) (map sql_of pss)
  = concat (map bound_values pss).
Proof.
  induction pss as [|ps pss IH]; [reflexivity|].
  cbn [map flat_map concat]. rewrite IH. reflexivity.
Qed.

Lemma mapM_refines cs :
  Forall (fun c => exists path, validateNode rt lib c path = Ok []) cs ->
  Forall (refines rt lib) cs ->
  exists pss,
    mapM (dispatch (spec_conditionToSql rt) (spec_groupToSql rt)) cs = Ok pss
    /\ mapM (dispatch (conditionToSql rt) (groupToSql rt)) cs = Ok (map sql_of pss)
    /\ (names_clean lib -> Forall clean pss).
Proof.
  induction cs as [|c cs IH]; intros Hvalid Hrefines.
  - exists []. repeat split. constructor.
  - inversion Hvalid as [|? ? (path & Hc) Hcs]; subst.
    inversion Hrefines as [|? ? Rc Rcs]; subst.
    destruct (Rc path Hc) as (pcs & Hp & Hs & Hclean).
    destruct (IH Hcs Rcs) as (pss & Hps & Hss & Hcleans).
    exists (pcs :: pss). cbn [mapM]. rewrite Hp, Hs, Hps, Hss.
    repeat split. intros Hn. constructor; [apply Hclean, Hn | apply Hcleans, Hn].
Qed.

Lemma branch_refines key sep path branch :
  validateBranch (validateNode rt lib) key path branch = Ok [] ->
  (forall cs, branch = VArr cs -> Forall (refines rt lib) cs) ->
  exists pss,
    spec_sqlBranch (dispatch (spec_conditionToSql rt) (spec_groupToSql rt)) sep branch = Ok pss
    /\ sqlBranch (dispatch (conditionToSql rt) (groupToSql rt)) sep branch
       = Ok (map render pss, concat (map bound_values pss))
    /\ (names_clean lib -> count_char "?" sep = 0 -> Forall clean pss).
Proof.
  intros Hvalid Hrefines.
  destruct branch as [ | | b | n | s | t | cs | ps]; try discriminate Hvalid.
  - exists []. repeat split. constructor.
  - cbn [validateBranch] in Hvalid. unfold collect in Hvalid.
    apply collect_from_nil in Hvalid.
    assert (Hvalid' : Forall (fun c => exists p, validateNode rt lib c p = Ok []) cs).
    { eapply List.Forall_impl; [|exact Hvalid]. intros c (j & Hj). eexists. exact Hj. }
    destruct (mapM_refines cs Hvalid' (Hrefines cs eq_refl)) as (pss & Hps & Hss & Hclean).
    exists [separated [Text sep] pss].
    unfold spec_sqlBranch, sqlBranch. cbn [truthy]. rewrite Hps, Hss. cbn [bind].
    split; [reflexivity|]. split.
    + rewrite flat_map_params, map_map.
      cbn [map concat]. rewrite app_nil_r, render_separated, bound_values_separated.
      reflexivity.
    + intros Hn Hsep. constructor; [|constructor].
      apply clean_separated; [exact Hsep | apply Hclean, Hn].
Qed.

Lemma group_refines ps :
  get_prop "field" ps = None ->
  (forall k cs, prop k ps = VArr cs -> Forall (refines rt lib) cs) ->
  refines rt lib (VObj ps).
Proof.
  intros Hfield Hrefines path Hvalid.
  rewrite validateNode_group in Hvalid by exact Hfield.
  apply bind_Ok in Hvalid as (errors & Hand & Hvalid).
  apply bind_Ok in Hvalid as (more & Hor & Hvalid).
  injection Hvalid as Hvalid. apply List.app_eq_nil in Hvalid as [-> ->].
  destruct (branch_refines "and" " AND " path _ Hand (Hrefines "and"))
    as (a & Hpa & Hsa & Hca).
  destruct (branch_refines "or" " OR " path _ Hor (Hrefines "or"))
    as (o & Hpo & Hso & Hco).
  exists ([Text "("] ++ separated [Text " AND "] (a ++ o) ++ [Text ")"]).
  unfold dispatch. cbn [field_in bind]. rewrite Hfield.
  cbn [spec_groupToSql groupToSql]. rewrite !reading_prop.
  rewrite Hpa, Hpo, Hsa, Hso. cbn [bind fst snd].
  split; [reflexivity|]. split.
  - unfold sql_of. f_equal. f_equal.
    + rewrite !render_app, render_separated, map_app.
      change (render [Text ")"]) with (")" +:+ "").
      change (render [Text "("]) with ("(" +:+ "").
      rewrite !append_nil_r. reflexivity.
    + rewrite !bound_values_app, bound_values_separated, map_app, concat_app.
      cbn. rewrite app_nil_r. reflexivity.
  - intros Hn. apply clean_app; [|apply clean_app].
    + repeat constructor.
    + apply clean_separated; [reflexivity|].
      apply List.Forall_app. split; [apply Hca | apply Hco]; auto.
    + repeat constructor.
Qed.

Lemma condition_refines ps v :
  get_prop "field" ps = Some v -> refines rt lib (VObj ps).
Proof.
  intros Hfield path Hvalid.
  rewrite (validateNode_condition _ _ _ v) in Hvalid by exact Hfield.
  apply validateCondition_Ok in Hvalid as (f & schema & op & Hf & Hschema & Hop & Hfits).
  destruct (condition_pieces rt ps f op Hf Hop Hfits) as (pcs & Hp & Hs & Hclean).
  exists pcs. unfold dispatch. cbn [field_in bind]. rewrite Hfield.
  split; [exact Hp|]. split; [exact Hs|].
  intros Hn. apply Hclean. exact (Hn f schema Hschema).
Qed.

Lemma every_node_refines node :
  refines rt lib node /\ (forall cs, node = VArr cs -> Forall (refines rt lib) cs).
Proof.
  induction node as [ | | b | n | s | t | xs IH | ps IH] using jsval_nested_ind;
    (split; [|try discriminate]).
  1-5: intros path Hvalid; discriminate Hvalid.
  - intros path _. exists [Text "("; Text ")"]. repeat split. repeat constructor.
  - intros path _. exists [Text "("; Text ")"]. repeat split. repeat constructor.
  - intros cs [= <-]. eapply List.Forall_impl; [|exact IH]. intros c [Hc _]. exact Hc.
  - destruct (get_prop "field" ps) as [v|] eqn:Hfield.
    + eapply condition_refines; exact Hfield.
    + apply group_refines; [exact Hfield|].
      intros k cs Hk. apply prop_array_In in Hk.
      rewrite List.Forall_forall in IH. exact (proj2 (IH _ Hk) cs eq_refl).
Qed.
End ParamsFollowPlaceholders.

(** C1. For a filter that validates with no error, the SQL compiler returns,
    and what it returns is the rendering of one statement whose placeholders
    carry their values: [sql] is the text with a question mark for each
    placeholder, [params] lists the values of the placeholders in the order in
    which they stand in that text, Groups and branches nested to any depth.
    When no field name of the schema holds a question mark, the question marks
    of [sql] are exactly the placeholders, so [params] has one entry per
    question mark. *)
Theorem sql_params_follow_placeholders (rt : Runtime) (lib : FilterLibrary)
    (filter : jsval) :
  validate rt lib filter = Ok [] ->
  exists pcs,
    spec_toSqlWhere rt filter = Ok pcs
    /\ toSqlWhere rt filter
       = Ok {| sql := render pcs; params := VArr (bound_values pcs) |}
    /\ (names_clean lib ->
        count_char "?" (render pcs) = length (bound_values pcs)).
Proof.
  unfold validate, spec_toSqlWhere, toSqlWhere.
  destruct (truthy filter); cbn [negb].
  - intros Hvalid.
    destruct (proj1 (every_node_refines rt lib filter) _ Hvalid) as (pcs & Hp & Hs & Hclean).
    exists pcs. split; [exact Hp|]. split; [exact Hs|].
    intros Hn. apply count_render, Hclean, Hn.
  - intros _. exists [Text "1=1"]. repeat split.
Qed.

Lemma names_clean_new_FilterLibrary schema :
  Forall (fun s => count_char "?" (name s) = 0) schema ->
  names_clean (new_FilterLibrary schema).
Proof.
  unfold names_clean, new_FilterLibrary. cbn [schemaMap].
  intros Hschema.
  assert (Hgen : forall m : gmap string FieldSchema,
            map_Forall (fun f (_ : FieldSchema) => count_char "?" f = 0) m ->
            map_Forall (fun f (_ : FieldSchema) => count_char "?" f = 0)
                       (fold_left (fun m s => <[name s := s]> m) schema m)).
  { induction Hschema as [|s schema Hs _ IH]; intros m Hm; [exact Hm|].
    cbn [fold_left]. apply IH. apply map_Forall_insert_2; assumption. }
  apply Hgen. apply map_Forall_empty.
Qed.

Lemma sql_params_follow_placeholders_witness :
  let lib := new_FilterLibrary userSchema in
  let filter :=
    VObj [("and", VArr [Condition "age" "gt" (VNum 30);
                        VObj [("or", VArr [Condition "role" "eq" (VStr "admin");
                                           Condition "isActive" "eq" (VBool true)])]])] in
  validate sample_runtime lib filter = Ok []
  /\ names_clean lib
  /\ toSqlWhere sample_runtime filter
     = Ok {| sql := "(age > ? AND (role = ? OR isActive = ?))";
             params := VArr [VNum 30; VStr "admin"; VBool true] |}
  /\ count_char "?" "(age > ? AND (role = ? OR isActive = ?))" = 3.
Proof.
  intros lib filter.
  assert (Hvalid : validate sample_runtime lib filter = Ok []) by (vm_compute; reflexivity).
  assert (Hnames : names_clean lib)
    by (apply names_clean_new_FilterLibrary; repeat constructor).
  destruct (sql_params_follow_placeholders sample_runtime lib filter Hvalid)
    as (pcs & Hpieces & Hsql & Hcount).
  assert (Hpcs : pcs = [Text "("; Text "age > "; Placeholder (VNum 30); Text " AND ";
                        Text "("; Text "role = "; Placeholder (VStr "admin"); Text " OR ";
                        Text "isActive = "; Placeholder (VBool true); Text ")"; Text ")"]).
  { vm_compute in Hpieces. injection Hpieces as <-. reflexivity. }
  subst pcs.
  split; [exact Hvalid|]. split; [exact Hnames|]. split.
  - exact Hsql.
  - exact (Hcount Hnames).
Defined.

(* ================================================================== *)
(** ** Further properties of the validator *)
(* ================================================================== *)

Lemma mapM_returns {A B} (f : A -> result B) xs :
  Forall (fun x => exists y, f x = Ok y) xs -> exists ys, mapM f xs = Ok ys.
Proof.
  induction 1 as [|x xs (y & Hy) _ (ys & Hys)].
  - exists []. reflexivity.
  - exists (y :: ys). cbn [mapM]. rewrite Hy, Hys. reflexivity.
Qed.

Lemma plain_prints rt v : plain v = true -> exists s, toStr rt v = Ok s.
Proof.
  induction v as [ | | b | n | s | t | xs IH | ps IH] using jsval_nested_ind;
    intros Hplain; try (eexists; reflexivity).
  - destruct b; eexists; reflexivity.
  - cbn [plain] in Hplain. cbn [toStr].
    destruct (mapM_returns
                (fun x => match x with
                          | VUndefined | VNull => Ok ""
                          | _ => toStr rt x
                          end) xs) as (parts & Hparts).
    + rewrite forallb_forall in Hplain. rewrite List.Forall_forall in IH |- *.
      intros x Hx. specialize (IH x Hx (Hplain x Hx)). destruct IH as (s & Hs).
      destruct x; try (eexists; reflexivity); exists s; exact Hs.
    + rewrite Hparts. eexists. reflexivity.
  - cbn [plain] in Hplain. cbn [toStr].
    destruct (get_prop "toString" ps); [discriminate | eexists; reflexivity].
Qed.

Lemma checkType_returns rt value type path schema :
  plain value = true -> exists errors, checkType rt value type path schema = Ok errors.
Proof.
  intros Hplain. destruct type; cbn [checkType].
  - destruct value; eexists; reflexivity.
  - destruct value; eexists; reflexivity.
  - destruct value; eexists; reflexivity.
  - destruct (plain_prints rt value Hplain) as (s & ->). cbn [bind].
    destruct (date_parses rt s); eexists; reflexivity.
  - destruct value as [ | | b | n | s | t | xs | ps]; try (eexists; reflexivity).
    destruct (enumValues schema) as [vs|]; [|eexists; reflexivity].
    destruct (existsb (String.eqb s) vs); eexists; reflexivity.
  - destruct value as [ | | b | n | s | t | xs | ps]; try (eexists; reflexivity).
    destruct (uuid_shape s); eexists; reflexivity.
Qed.

Lemma collect_from_returns {A E} (f : A -> nat -> result (list E)) xs :
  Forall (fun x => forall i, exists es, f x i = Ok es) xs ->
  forall i, exists es, collect_from f i xs = Ok es.
Proof.
  induction 1 as [|x xs Hx _ IH]; intros i.
  - exists []. reflexivity.
  - destruct (Hx i) as (e & He). destruct (IH (S i)) as (es & Hes).
    exists (e ++ es). cbn [collect_from]. rewrite He, Hes. reflexivity.
Qed.

Lemma validateValue_returns rt ps type path schema :
  plain (prop "operator" ps) = true -> plain (prop "value" ps) = true ->
  exists errors, validateValue rt (VObj ps) type path schema = Ok errors.
Proof.
  intros Hop Hvalue. unfold validateValue. cbn [get bind].
  assert (Hall : forall vs, prop "value" ps = VArr vs ->
            exists errors,
              collect (fun v i =>
                checkType rt v type (path +:+ ".value[" +:+ nat_str i +:+ "]") schema) vs
              = Ok errors).
  { intros vs Hvs. rewrite Hvs in Hvalue. cbn [plain] in Hvalue.
    rewrite forallb_forall in Hvalue.
    apply collect_from_returns. apply List.Forall_forall.
    intros v Hv i. apply checkType_returns, Hvalue, Hv. }
  destruct (is_op (prop "operator" ps) "is_null" || is_op (prop "operator" ps) "is_not_null").
  { destruct (strict_eq (prop "value" ps) VUndefined); [eexists; reflexivity|].
    destruct (plain_prints rt _ Hop) as (o & ->). eexists. reflexivity. }
  destruct (is_op (prop "operator" ps) "between").
  { destruct (prop "value" ps) as [ | | b | n | s | t | vs | qs] eqn:Hv;
      try (eexists; reflexivity).
    destruct vs as [|v0 [|v1 [|v2 vs]]]; try (eexists; reflexivity).
    apply (Hall [v0; v1]). reflexivity. }
  destruct (is_op (prop "operator" ps) "in").
  { destruct (prop "value" ps) as [ | | b | n | s | t | vs | qs] eqn:Hv;
      try (eexists; reflexivity).
    apply (Hall vs). reflexivity. }
  destruct (strict_eq (prop "value" ps) VUndefined); [eexists; reflexivity|].
  apply checkType_returns, Hvalue.
Qed.

Lemma validateCondition_returns rt lib ps path :
  plain (prop "field" ps) = true -> plain (prop "operator" ps) = true ->
  plain (prop "value" ps) = true ->
  exists errors, validateCondition rt lib (VObj ps) path = Ok errors.
Proof.
  intros Hfield Hop Hvalue. unfold validateCondition. cbn [get bind].
  destruct (plain_prints rt _ Hfield) as (f & Hf).
  destruct (plain_prints rt _ Hop) as (o & Ho).
  destruct (match prop "field" ps with
            | VStr f0 => schemaMap lib !! f0
            | _ => None
            end) as [schema|].
  2: { rewrite Hf. eexists. reflexivity. }
  destruct (filterable schema); cbn [negb].
  2: { rewrite Hf. eexists. reflexivity. }
  destruct (validateValue_returns rt ps (type schema) path schema Hop Hvalue)
    as (more & ->).
  destruct (includes_operator (allowedOps schema) (prop "operator" ps)).
  - eexists. reflexivity.
  - rewrite Ho, Hf. eexists. reflexivity.
Qed.

Lemma validateBranch_returns rt lib key path branch :
  (forall cs, branch = VArr cs ->
     Forall (fun c => forall p, exists errors, validateNode rt lib c p = Ok errors) cs) ->
  exists errors, validateBranch (validateNode rt lib) key path branch = Ok errors.
Proof.
  intros Hcs.
  destruct branch as [ | | b | n | s | t | cs | ps]; try (eexists; reflexivity).
  cbn [validateBranch]. apply collect_from_returns.
  eapply List.Forall_impl; [|exact (Hcs cs eq_refl)].
  intros c Hc i. apply Hc.
Qed.

Lemma object_tree_group ps :
  get_prop "field" ps = None ->
  object_tree (VObj ps)
  = branch_all object_tree (prop "and" ps) && branch_all object_tree (prop "or" ps).
Proof.
  intros Hfield. cbn [object_tree]. rewrite Hfield, !reading_prop. reflexivity.
Qed.

Lemma validateNode_returns rt lib node :
  (object_tree node = true ->
   forall path, exists errors, validateNode rt lib node path = Ok errors)
  /\ (forall cs, node = VArr cs ->
      Forall (fun c => object_tree c = true ->
                       forall path, exists errors, validateNode rt lib c path = Ok errors) cs).
Proof.
  induction node as [ | | b | n | s | t | xs IH | ps IH] using jsval_nested_ind;
    (split; [|try discriminate]); try (intros Htree; discriminate Htree).
  - intros _ path. exists []. reflexivity.
  - intros _ path. exists []. reflexivity.
  - intros cs [= <-]. eapply List.Forall_impl; [|exact IH]. intros c [Hc _]. exact Hc.
  - intros Htree path.
    destruct (get_prop "field" ps) as [field|] eqn:Hfield.
    + rewrite (validateNode_condition _ _ _ field) by exact Hfield.
      cbn [object_tree] in Htree. rewrite Hfield in Htree.
      apply andb_prop in Htree as [Htree Hvalue].
      apply andb_prop in Htree as [Hf Hop].
      apply validateCondition_returns; try assumption.
      unfold prop. rewrite Hfield. exact Hf.
    + rewrite validateNode_group by exact Hfield.
      rewrite object_tree_group in Htree by exact Hfield.
      apply andb_prop in Htree as [Hand Hor].
      assert (Hbranch : forall key branch,
                (branch = prop "and" ps \/ branch = prop "or" ps) ->
                branch_all object_tree branch = true ->
                exists errors,
                  validateBranch (validateNode rt lib) key path branch = Ok errors).
      { intros key branch Hwhich Hall. apply validateBranch_returns.
        intros cs Hcs. subst branch. cbn [branch_all] in Hall.
        rewrite forallb_forall in Hall.
        assert (Hin : exists k, In (k, VArr cs) ps).
        { destruct Hwhich as [H|H]; symmetry in H; apply prop_array_In in H; eauto. }
        destruct Hin as (k & Hin).
        rewrite List.Forall_forall in IH.
        pose proof (proj2 (IH _ Hin) cs eq_refl) as Hcs'.
        rewrite List.Forall_forall in Hcs' |- *.
        intros c Hc p. apply Hcs'; [exact Hc | apply Hall, Hc]. }
      destruct (Hbranch "and" _ (or_introl eq_refl) Hand) as (e1 & ->).
      destruct (Hbranch "or" _ (or_intror eq_refl) Hor) as (e2 & ->).
      eexists. reflexivity.
Qed.

(** X1. On a filter that is absent, or a tree of objects whose Conditions
    have printable [field], [operator] and [value], [validate] returns a list
    of errors: it does not throw. *)
Theorem validate_returns_on_object_trees (rt : Runtime) (lib : FilterLibrary)
    (filter : jsval) :
  truthy filter = false \/ object_tree filter = true ->
  exists errors, validate rt lib filter = Ok errors.
Proof.
  unfold validate. intros [Habsent | Htree].
  - rewrite Habsent. exists []. reflexivity.
  - destruct (truthy filter); cbn [negb]; [|exists []; reflexivity].
    apply (proj1 (validateNode_returns rt lib filter) Htree).
Qed.

Lemma validate_returns_on_object_trees_witness :
  let filter :=
    Group [Condition "age" "between" (VNum 3); VObj [("or", VNum 3)]]
          [Condition "password" "like" (VArr [VNull; VStr "x"])] in
  object_tree filter = true
  /\ exists errors, validate sample_runtime (new_FilterLibrary userSchema) filter = Ok errors.
Proof.
  intros filter. split; [reflexivity|].
  apply (validate_returns_on_object_trees sample_runtime (new_FilterLibrary userSchema) filter).
  right. reflexivity.
Defined.

Lemma below_here p e : path e = p -> below p e.
Proof. intros H. exists "". rewrite append_nil_r. exact H. Qed.

Lemma below_deeper p segment e : below (p +:+ segment) e -> below p e.
Proof. intros (suffix & H). exists (segment +:+ suffix). rewrite H. apply append_assoc. Qed.

Lemma Forall_below_deeper p segment es :
  Forall (below (p +:+ segment)) es -> Forall (below p) es.
Proof. apply List.Forall_impl. intros e. apply below_deeper. Qed.

Lemma collect_from_Forall {A E} (P : E -> Prop) (f : A -> nat -> result (list E)) xs :
  Forall (fun x => forall i es, f x i = Ok es -> Forall P es) xs ->
  forall i es, collect_from f i xs = Ok es -> Forall P es.
Proof.
  induction 1 as [|x xs Hx _ IH]; intros i es H; cbn [collect_from] in H.
  - injection H as <-. constructor.
  - apply bind_Ok in H as (e & He & H). apply bind_Ok in H as (es' & Hes & H).
    injection H as <-. apply Forall_app. split; [eapply Hx, He | eapply IH, Hes].
Qed.

Lemma checkType_path rt value type p schema es :
  checkType rt value type p schema = Ok es -> Forall (below p) es.
Proof.
  assert (Hone : forall m, Forall (below p) [ {| path := p; message := m |} ])
    by (intros m; repeat constructor; apply below_here; reflexivity).
  destruct type; cbn [checkType]; intros H.
  - destruct value; injection H as <-; auto.
  - destruct value; injection H as <-; auto.
  - destruct value; injection H as <-; auto.
  - apply bind_Ok in H as (s & _ & H).
    destruct (date_parses rt s); injection H as <-; auto.
  - destruct value as [ | | b | n | s | t | xs | ps]; try (injection H as <-; auto; fail).
    destruct (enumValues schema) as [vs|]; [|injection H as <-; auto].
    destruct (existsb (String.eqb s) vs); injection H as <-; auto.
  - destruct value as [ | | b | n | s | t | xs | ps]; try (injection H as <-; auto; fail).
    destruct (uuid_shape s); injection H as <-; auto.
Qed.

Lemma validateValue_path rt cond type p schema es :
  validateValue rt cond type p schema = Ok es -> Forall (below p) es.
Proof.
  assert (Hone : forall m, Forall (below p) [ {| path := p; message := m |} ])
    by (intros m; repeat constructor; apply below_here; reflexivity).
  assert (Hall : forall vs es',
            collect (fun v i =>
              checkType rt v type (p +:+ ".value[" +:+ nat_str i +:+ "]") schema) vs
            = Ok es' -> Forall (below p) es').
  { intros vs es'. unfold collect. apply collect_from_Forall.
    apply List.Forall_forall. intros v _ i es0 H0.
    apply checkType_path in H0. eapply Forall_below_deeper, H0. }
  unfold validateValue. intros H.
  apply bind_Ok in H as (operator & _ & H). apply bind_Ok in H as (value & _ & H).
  destruct (is_op operator "is_null" || is_op operator "is_not_null").
  { destruct (strict_eq value VUndefined); [injection H as <-; constructor|].
    apply bind_Ok in H as (o & _ & H). injection H as <-. auto. }
  destruct (is_op operator "between").
  { destruct value as [ | | b | n | s | t | vs | qs]; try (injection H as <-; auto; fail).
    destruct vs as [|v0 [|v1 [|v2 vs]]]; try (injection H as <-; auto; fail).
    eapply Hall, H. }
  destruct (is_op operator "in").
  { destruct value as [ | | b | n | s | t | vs | qs]; try (injection H as <-; auto; fail).
    eapply Hall, H. }
  destruct (strict_eq value VUndefined); [injection H as <-; auto|].
  apply checkType_path in H. eapply Forall_below_deeper, H.
Qed.

Lemma validateCondition_path rt lib cond p es :
  validateCondition rt lib cond p = Ok es -> Forall (below p) es.
Proof.
  assert (Hone : forall m, Forall (below p) [ {| path := p; message := m |} ])
    by (intros m; repeat constructor; apply below_here; reflexivity).
  unfold validateCondition. intros H.
  apply bind_Ok in H as (field & _ & H).
  destruct (match field with VStr f => schemaMap lib !! f | _ => None end) as [schema|].
  2: { apply bind_Ok in H as (f & _ & H). injection H as <-. auto. }
  destruct (filterable schema); cbn [negb] in H.
  2: { apply bind_Ok in H as (f & _ & H). injection H as <-. auto. }
  apply bind_Ok in H as (operator & _ & H).
  apply bind_Ok in H as (errors & Herrors & H).
  apply bind_Ok in H as (more & Hmore & H).
  injection H as <-. apply Forall_app. split.
  - destruct (includes_operator (allowedOps schema) operator).
    + injection Herrors as <-. constructor.
    + apply bind_Ok in Herrors as (o & _ & Herrors).
      apply bind_Ok in Herrors as (f & _ & Herrors). injection Herrors as <-. auto.
  - eapply validateValue_path, Hmore.
Qed.

Lemma validateBranch_path rt lib key p branch es :
  (forall cs, branch = VArr cs ->
     Forall (fun c => forall q es', validateNode rt lib c q = Ok es' ->
                                    Forall (below q) es') cs) ->
  validateBranch (validateNode rt lib) key p branch = Ok es -> Forall (below p) es.
Proof.
  intros Hcs H.
  destruct branch as [ | | b | n | s | t | cs | ps]; cbn [validateBranch] in H;
    try (injection H as <-; repeat constructor; apply below_here; reflexivity).
  unfold collect in H. revert H. apply collect_from_Forall.
  eapply List.Forall_impl; [|exact (Hcs cs eq_refl)].
  intros c Hc i es' H'. apply Hc in H'.
  eapply Forall_below_deeper, H'.
Qed.

Lemma validateNode_path rt lib node :
  (forall p es, validateNode rt lib node p = Ok es -> Forall (below p) es)
  /\ (forall cs, node = VArr cs ->
      Forall (fun c => forall q es', validateNode rt lib c q = Ok es' ->
                                     Forall (below q) es') cs).
Proof.
  induction node as [ | | b | n | s | t | xs IH | ps IH] using jsval_nested_ind;
    (split; [|try discriminate]); try (intros p es H; discriminate H).
  - intros p es H. injection H as <-. constructor.
  - intros p es H. injection H as <-. constructor.
  - intros cs [= <-]. eapply List.Forall_impl; [|exact IH]. intros c [Hc _]. exact Hc.
  - intros p es H.
    destruct (get_prop "field" ps) as [field|] eqn:Hfield.
    + rewrite (validateNode_condition _ _ _ field) in H by exact Hfield.
      eapply validateCondition_path, H.
    + rewrite validateNode_group in H by exact Hfield.
      apply bind_Ok in H as (e1 & H1 & H). apply bind_Ok in H as (e2 & H2 & H).
      injection H as <-.
      assert (Hsub : forall k cs, prop k ps = VArr cs ->
                Forall (fun c => forall q es', validateNode rt lib c q = Ok es' ->
                                               Forall (below q) es') cs).
      { intros k cs Hk. apply prop_array_In in Hk.
        rewrite List.Forall_forall in IH. exact (proj2 (IH _ Hk) cs eq_refl). }
      apply Forall_app. split.
      * eapply validateBranch_path; [|exact H1]. apply Hsub.
      * eapply validateBranch_path; [|exact H2]. apply Hsub.
Qed.

(** X2. Every error [validate] reports carries a path that starts with
    [<root>]; more generally the errors of a node validated at a path lie
    at or below that path. *)
Theorem validation_errors_lie_below_root (rt : Runtime) (lib : FilterLibrary)
    (filter : jsval) (errors : list ValidationError) :
  validate rt lib filter = Ok errors -> Forall (below "<root>") errors.
Proof.
  unfold validate. destruct (truthy filter); cbn [negb]; intros H.
  - eapply (proj1 (validateNode_path rt lib filter)), H.
  - injection H as <-. constructor.
Qed.

Lemma validateCondition_Ok_exposed rt lib ps path :
  validateCondition rt lib (VObj ps) path = Ok [] -> exposed lib (VObj ps).
Proof.
  unfold validateCondition, exposed. cbn [get bind].
  destruct (match prop "field" ps with
            | VStr f => schemaMap lib !! f
            | _ => None
            end) as [schema|] eqn:Hschema.
  2: { intros H. apply bind_Ok in H as (s & _ & H). discriminate H. }
  destruct (prop "field" ps) as [ | | b | n | f | t | xs | qs]; try discriminate Hschema.
  destruct (filterable schema) eqn:Hfilterable; cbn [negb].
  2: { intros H. apply bind_Ok in H as (s & _ & H). discriminate H. }
  intros H.
  apply bind_Ok in H as (errors & Herrors & H).
  apply bind_Ok in H as (more & Hmore & H).
  injection H as H. apply List.app_eq_nil in H as [-> ->].
  destruct (includes_operator (allowedOps schema) (prop "operator" ps)) eqn:Hinc.
  2: { apply bind_Ok in Herrors as (o & _ & Herrors).
       apply bind_Ok in Herrors as (s & _ & Herrors). discriminate Herrors. }
  apply includes_operator_true in Hinc as (op & Hin & Hop).
  exists f, schema, op. rewrite Hop. auto.
Qed.

Lemma conditions_group ps :
  get_prop "field" ps = None ->
  conditions (VObj ps)
  = branch_flat conditions (prop "and" ps) ++ branch_flat conditions (prop "or" ps).
Proof.
  intros Hfield. cbn [conditions]. rewrite Hfield, !reading_prop. reflexivity.
Qed.

Section ValidConditions.
Variable rt : Runtime.
Variable lib : FilterLibrary.
(** a property every Condition that validates with no error has *)
Variable P : jsval -> Prop.
Hypothesis P_condition :
  forall ps path, validateCondition rt lib (VObj ps) path = Ok [] -> P (VObj ps).

Lemma validateBranch_conditions key path branch :
  (forall cs, branch = VArr cs ->
     Forall (fun c => forall p, validateNode rt lib c p = Ok [] ->
                                Forall P (conditions c)) cs) ->
  validateBranch (validateNode rt lib) key path branch = Ok [] ->
  Forall P (branch_flat conditions branch).
Proof.
  intros Hcs H.
  destruct branch as [ | | b | n | s | t | cs | ps]; try constructor.
  cbn [validateBranch] in H. unfold collect in H. apply collect_from_nil in H.
  cbn [branch_flat]. specialize (Hcs cs eq_refl).
  induction cs as [|c cs IH]; [constructor|].
  inversion H as [|? ? (j & Hj) Hrest]; subst.
  inversion Hcs as [|? ? Hc Hcs']; subst.
  cbn [flat_map]. apply Forall_app. split; [eapply Hc, Hj | apply IH; assumption].
Qed.

Lemma validateNode_conditions node :
  (forall p, validateNode rt lib node p = Ok [] -> Forall P (conditions node))
  /\ (forall cs, node = VArr cs ->
      Forall (fun c => forall p, validateNode rt lib c p = Ok [] ->
                                 Forall P (conditions c)) cs).
Proof.
  induction node as [ | | b | n | s | t | xs IH | ps IH] using jsval_nested_ind;
    (split; [|try discriminate]); try (intros p H; constructor).
  - intros cs [= <-]. eapply List.Forall_impl; [|exact IH]. intros c [Hc _]. exact Hc.
  - intros p H.
    destruct (get_prop "field" ps) as [field|] eqn:Hfield.
    + rewrite (validateNode_condition _ _ _ field) in H by exact Hfield.
      cbn [conditions]. rewrite Hfield. repeat constructor.
      eapply P_condition, H.
    + rewrite validateNode_group in H by exact Hfield.
      apply bind_Ok in H as (e1 & H1 & H). apply bind_Ok in H as (e2 & H2 & H).
      injection H as H. apply List.app_eq_nil in H as [-> ->].
      rewrite conditions_group by exact Hfield.
      assert (Hsub : forall k cs, prop k ps = VArr cs ->
                Forall (fun c => forall q, validateNode rt lib c q = Ok [] ->
                                           Forall P (conditions c)) cs).
      { intros k cs Hk. apply prop_array_In in Hk.
        rewrite List.Forall_forall in IH. exact (proj2 (IH _ Hk) cs eq_refl). }
      apply Forall_app. split.
      * eapply validateBranch_conditions; [|exact H1]. apply Hsub.
      * eapply validateBranch_conditions; [|exact H2]. apply Hsub.
Qed.

Lemma validate_conditions filter :
  validate rt lib filter = Ok [] -> Forall P (conditions filter).
Proof.
  unfold validate. destruct (truthy filter) eqn:Htruthy; cbn [negb]; intros H.
  - eapply (proj1 (validateNode_conditions filter)), H.
  - destruct filter as [ | | b | n | s | t | xs | ps]; try constructor; discriminate Htruthy.
Qed.
End ValidConditions.

(** X3. In a filter that validates with no error, every Condition, at any
    depth, names a field that is in the schema and filterable, with an
    operator the field allows. *)
Theorem valid_filter_touches_exposed_fields_only (rt : Runtime) (lib : FilterLibrary)
    (filter : jsval) :
  validate rt lib filter = Ok [] -> Forall (exposed lib) (conditions filter).
Proof.
  apply validate_conditions. intros ps path. apply validateCondition_Ok_exposed.
Qed.

Lemma condition_compiles_to_mongo rt ps f op :
  prop "field" ps = VStr f ->
  prop "operator" ps = VStr (operator_name op) ->
  value_fits rt op (prop "value" ps) ->
  exists q, conditionToMongo rt (VObj ps) = Ok (VObj [(f, q)]).
Proof.
  intros Hfield Hop Hfits. unfold conditionToMongo. cbn [get bind].
  rewrite Hfield, Hop, operator_of_name. cbn [toStr bind].
  remember (prop "value" ps) as value eqn:Hvalue. clear Hvalue Hop.
  destruct Hfits as [v | v | v0 v1 | vs | op v s N1 N2 N3 N4 Hs];
    try (eexists; reflexivity).
  destruct op; try congruence; rewrite ?Hs; cbn [bind]; eexists; reflexivity.
Qed.

Lemma mongoBranch_returns rt lib key path branch :
  (forall cs, branch = VArr cs ->
     Forall (fun c => forall p, validateNode rt lib c p = Ok [] ->
               exists qs, dispatch (conditionToMongo rt) (groupToMongo rt) c = Ok (VObj qs))
            cs) ->
  validateBranch (validateNode rt lib) key path branch = Ok [] ->
  exists o, mongoBranch (dispatch (conditionToMongo rt) (groupToMongo rt)) branch = Ok o.
Proof.
  intros Hcs H.
  destruct branch as [ | | b | n | s | t | cs | ps]; try discriminate H.
  - exists None. reflexivity.
  - cbn [validateBranch] in H. unfold collect in H. apply collect_from_nil in H.
    specialize (Hcs cs eq_refl). unfold mongoBranch. cbn [truthy].
    destruct (mapM_returns (dispatch (conditionToMongo rt) (groupToMongo rt)) cs)
      as (qs & ->); [|eexists; reflexivity].
    rewrite List.Forall_forall in H, Hcs |- *.
    intros c Hc. destruct (H c Hc) as (j & Hj).
    destruct (Hcs c Hc _ Hj) as (qs & Hqs). eexists. exact Hqs.
Qed.

Lemma validateNode_compiles_to_mongo rt lib node :
  (forall p, validateNode rt lib node p = Ok [] ->
     exists qs, dispatch (conditionToMongo rt) (groupToMongo rt) node = Ok (VObj qs))
  /\ (forall cs, node = VArr cs ->
      Forall (fun c => forall p, validateNode rt lib c p = Ok [] ->
                exists qs, dispatch (conditionToMongo rt) (groupToMongo rt) c = Ok (VObj qs))
             cs).
Proof.
  induction node as [ | | b | n | s | t | xs IH | ps IH] using jsval_nested_ind;
    (split; [|try discriminate]); try (intros p H; discriminate H).
  - intros p _. exists []. reflexivity.
  - intros p _. exists []. reflexivity.
  - intros cs [= <-]. eapply List.Forall_impl; [|exact IH]. intros c [Hc _]. exact Hc.
  - intros p H. unfold dispatch. cbn [field_in bind].
    destruct (get_prop "field" ps) as [field|] eqn:Hfield.
    + rewrite (validateNode_condition _ _ _ field) in H by exact Hfield.
      apply validateCondition_Ok in H as (f & schema & op & Hf & _ & Hop & Hfits).
      destruct (condition_compiles_to_mongo rt ps f op Hf Hop Hfits) as (q & Hq).
      eexists. exact Hq.
    + rewrite validateNode_group in H by exact Hfield.
      apply bind_Ok in H as (e1 & H1 & H). apply bind_Ok in H as (e2 & H2 & H).
      injection H as H. apply List.app_eq_nil in H as [-> ->].
      assert (Hsub : forall k cs, prop k ps = VArr cs ->
                Forall (fun c => forall q, validateNode rt lib c q = Ok [] ->
                  exists qs, dispatch (conditionToMongo rt) (groupToMongo rt) c = Ok (VObj qs))
                       cs).
      { intros k cs Hk. apply prop_array_In in Hk.
        rewrite List.Forall_forall in IH. exact (proj2 (IH _ Hk) cs eq_refl). }
      cbn [groupToMongo]. rewrite !reading_prop.
      destruct (mongoBranch_returns rt lib "and" p _ (Hsub "and") H1) as (a & ->).
      destruct (mongoBranch_returns rt lib "or" p _ (Hsub "or") H2) as (o & ->).
      eexists. reflexivity.
Qed.

(** X4. A filter that validates with no error compiles with the Mongo
    compiler: [toMongoQuery] returns a query object; it throws neither the
    unsupported-operator error nor a TypeError. *)
Theorem valid_filter_compiles_to_mongo (rt : Runtime) (lib : FilterLibrary)
    (filter : jsval) :
  validate rt lib filter = Ok [] ->
  exists qs, toMongoQuery rt filter = Ok (VObj qs).
Proof.
  unfold validate, toMongoQuery. destruct (truthy filter); cbn [negb]; intros H.
  - eapply (proj1 (validateNode_compiles_to_mongo rt lib filter)), H.
  - exists []. reflexivity.
Qed.

(* ================================================================== *)
(** ** Further properties of the evaluator *)
(* ================================================================== *)


Lemma bind_bool_id (m : result bool) :
  (let* b := m in if b then Ok true else Ok false) = m.
Proof. destruct m as [[|]|e]; reflexivity. Qed.

(** A query with one key that is neither [$and] nor [$or]. *)
Lemma matchesQuery_single_field rt user f c :
  f <> "$and" -> f <> "$or" ->
  matchesQuery rt user (VObj [(f, c)])
  = if negb (typeof_object c) || match c with VDate _ => true | _ => false end
    then Ok (strict_eq (prop f user) c)
    else every (matchesOp rt (prop f user) c) (keys c).
Proof.
  intros Hand Hor.
  rewrite matchesQuery_unfold.
  rewrite !prop_later by congruence.
  change (prop "$and" []) with VUndefined. change (prop "$or" []) with VUndefined.
  cbn [truthy negb orb keys own_entries map fst length Nat.eqb every].
  rewrite bind_bool_id.
  unfold matchesField. cbn [own_entries]. rewrite prop_here. reflexivity.
Qed.

(** deciding the comparisons of key literals in a goal *)
Ltac literal_keys :=
  repeat match goal with
  | |- context [String.eqb ?a ?b] =>
      let r := eval vm_compute in (String.eqb a b) in
      change (String.eqb a b) with r
  end;
  cbv iota.

Lemma toMongoQuery_Condition rt f o v :
  toMongoQuery rt (Condition f o v) = conditionToMongo rt (Condition f o v).
Proof. reflexivity. Qed.


(** X6. The ordering operators on a numeric field: the compiled query
    accepts a record exactly when its number stands in that order to the
    operand. *)
Theorem ordering_conditions_compare_numbers (rt : Runtime) (user : record)
    (f : string) (m n : Z) :
  f <> "$and" -> f <> "$or" -> prop f user = VNum m ->
  evaluates rt user (Condition f "gt" (VNum n)) (n <? m)%Z
  /\ evaluates rt user (Condition f "lt" (VNum n)) (m <? n)%Z
  /\ evaluates rt user (Condition f "gte" (VNum n)) (n <=? m)%Z
  /\ evaluates rt user (Condition f "lte" (VNum n)) (m <=? n)%Z.
Proof.
  intros Hand Hor Hm.
  assert (Hgte : (n <=? m)%Z = negb (m <? n)%Z) by (rewrite Z.ltb_antisym, negb_involutive; reflexivity).
  assert (Hlte : (m <=? n)%Z = negb (n <? m)%Z) by (rewrite Z.ltb_antisym, negb_involutive; reflexivity).
  split; [|split; [|split]]; (eexists; split; [lazy; reflexivity|]);
    rewrite matchesQuery_single_field by assumption; rewrite Hm;
    cbn [typeof_object negb orb keys own_entries map fst every];
    unfold matchesOp; cbn [own_entries]; rewrite prop_here; literal_keys;
    cbn [js_gt js_lt js_gte js_lte less_than bind].
  - clear Hgte Hlte. destruct (n <? m)%Z; reflexivity.
  - clear Hgte Hlte. destruct (m <? n)%Z; reflexivity.
  - rewrite Hgte. clear Hgte Hlte. destruct (m <? n)%Z; reflexivity.
  - rewrite Hlte. clear Hgte Hlte. destruct (n <? m)%Z; reflexivity.
Qed.

(** X7. [between] on a numeric field: the compiled query accepts a record
    exactly when its number lies in the closed range. *)
Theorem between_condition_is_closed_range (rt : Runtime) (user : record)
    (f : string) (m lo hi : Z) :
  f <> "$and" -> f <> "$or" -> prop f user = VNum m ->
  evaluates rt user (Condition f "between" (VArr [VNum lo; VNum hi]))
            ((lo <=? m)%Z && (m <=? hi)%Z).
Proof.
  intros Hand Hor Hm. eexists. split; [lazy; reflexivity|].
  rewrite matchesQuery_single_field by assumption. rewrite Hm.
  cbn [typeof_object negb orb keys own_entries map fst every].
  unfold matchesOp. cbn [own_entries]. rewrite prop_here.
  rewrite prop_later by discriminate. rewrite prop_here. literal_keys.
  cbn [js_gte js_lte less_than bind].
  rewrite (Z.leb_antisym m lo), (Z.leb_antisym hi m).
  destruct (m <? lo)%Z; cbn [negb andb]; [reflexivity|].
  destruct (hi <? m)%Z; reflexivity.
Qed.



Lemma every_Forall2 {A} (f : A -> result bool) xs bs :
  Forall2 (fun x b => f x = Ok b) xs bs -> every f xs = Ok (forallb id bs).
Proof.
  induction 1 as [|x b xs bs Hx _ IH]; [reflexivity|].
  cbn [every forallb]. rewrite Hx. cbn [bind]. destruct b; [exact IH | reflexivity].
Qed.

Lemma some_Forall2 {A} (f : A -> result bool) xs bs :
  Forall2 (fun x b => f x = Ok b) xs bs -> some f xs = Ok (existsb id bs).
Proof.
  induction 1 as [|x b xs bs Hx _ IH]; [reflexivity|].
  cbn [some existsb]. rewrite Hx. cbn [bind]. destruct b; [reflexivity | exact IH].
Qed.

Lemma toMongoQuery_truthy rt c :
  truthy c = true ->
  toMongoQuery rt c = dispatch (conditionToMongo rt) (groupToMongo rt) c.
Proof. intros H. unfold toMongoQuery. rewrite H. reflexivity. Qed.

Lemma evaluates_elements rt user cs bs :
  Forall2 (fun c b => truthy c = true /\ evaluates rt user c b) cs bs ->
  exists qs,
    mapM (dispatch (conditionToMongo rt) (groupToMongo rt)) cs = Ok qs
    /\ Forall2 (fun q b => matchesQuery rt user q = Ok b) qs bs.
Proof.
  induction 1 as [|c b cs bs [Hc (q & Hq & Hb)] _ (qs & Hqs & Hbs)].
  - exists []. split; [reflexivity | constructor].
  - exists (q :: qs). rewrite toMongoQuery_truthy in Hq by exact Hc.
    cbn [mapM]. rewrite Hq, Hqs. split; [reflexivity | constructor; assumption].
Qed.

(** X10. A Group with one branch: [{and: cs}] is accepted exactly when every
    element is, [{or: cs}] exactly when some element is; with an empty array
    the former accepts every record and the latter none. *)
Theorem single_branch_group_is_conjunction_or_disjunction (rt : Runtime)
    (user : record) (cs : list jsval) (bs : list bool) :
  Forall2 (fun c b => truthy c = true /\ evaluates rt user c b) cs bs ->
  evaluates rt user (VObj [("and", VArr cs)]) (forallb id bs)
  /\ evaluates rt user (VObj [("or", VArr cs)]) (existsb id bs).
Proof.
  intros Hall. destruct (evaluates_elements rt user cs bs Hall) as (qs & Hqs & Hbs).
  split.
  - exists (VObj [("$and", VArr qs)]). split.
    + unfold toMongoQuery, dispatch. cbn [truthy negb field_in bind].
      change (get_prop "field" [("and", VArr cs)]) with (@None jsval). cbv iota.
      cbn [groupToMongo]. rewrite !reading_prop.
      change (prop "and" [("and", VArr cs)]) with (VArr cs).
      change (prop "or" [("and", VArr cs)]) with VUndefined.
      unfold mongoBranch. cbn [truthy]. rewrite Hqs. reflexivity.
    + rewrite (matchesQuery_and rt user _ qs) by reflexivity.
      apply every_Forall2, Hbs.
  - exists (VObj [("$or", VArr qs)]). split.
    + unfold toMongoQuery, dispatch. cbn [truthy negb field_in bind].
      change (get_prop "field" [("or", VArr cs)]) with (@None jsval). cbv iota.
      cbn [groupToMongo]. rewrite !reading_prop.
      change (prop "or" [("or", VArr cs)]) with (VArr cs).
      change (prop "and" [("or", VArr cs)]) with VUndefined.
      unfold mongoBranch. cbn [truthy]. rewrite Hqs. reflexivity.
    + rewrite matchesQuery_unfold.
      change (prop "$and" [("$or", VArr qs)]) with VUndefined.
      change (prop "$or" [("$or", VArr qs)]) with (VArr qs).
      cbn [truthy negb orb keys own_entries map fst length Nat.eqb on_array].
      apply some_Forall2, Hbs.
Qed.

(* ================================================================== *)
(** ** Further properties of the compilers and of the registry *)
(* ================================================================== *)

(** X11. A Condition whose operator is a string outside the [Operator]
    union makes both compilers throw the same unsupported-operator error,
    whatever its field and value are. *)
Theorem unsupported_operator_stops_both_compilers (rt : Runtime)
    (ps : list (string * jsval)) (field : jsval) (o : string) :
  get_prop "field" ps = Some field ->
  prop "operator" ps = VStr o ->
  ~ In o (map operator_name all_operators) ->
  toMongoQuery rt (VObj ps) = Throw (Error ("Unsupported operator: " +:+ o))
  /\ toSqlWhere rt (VObj ps) = Throw (Error ("Unsupported operator: " +:+ o)).
Proof.
  intros Hfield Hop Hnot.
  assert (Hnone : operator_of (VStr o) = None).
  { unfold operator_of. destruct (find _ all_operators) as [op|] eqn:Hfind; [|reflexivity].
    apply find_some in Hfind as [Hin Heq]. apply String.eqb_eq in Heq.
    exfalso. apply Hnot. rewrite <- Heq. apply in_map, Hin. }
  unfold toMongoQuery, toSqlWhere, dispatch. cbn [truthy negb field_in bind].
  rewrite Hfield. unfold conditionToMongo, conditionToSql. cbn [get bind].
  rewrite Hop, Hnone. split; reflexivity.
Qed.

Lemma find_append {A} (p : A -> bool) xs ys :
  find p (xs ++ ys) = match find p xs with Some x => Some x | None => find p ys end.
Proof.
  induction xs as [|x xs IH]; [reflexivity|].
  cbn [app find]. destruct (p x); [reflexivity | exact IH].
Qed.

Lemma schemaMap_fold (schema : list FieldSchema) (m : gmap string FieldSchema) f :
  fold_left (fun m s => <[name s := s]> m) schema m !! f
  = match find (fun s => (name s =? f)%string) (rev schema) with
    | Some s => Some s
    | None => m !! f
    end.
Proof.
  revert m. induction schema as [|s schema IH]; intros m; [reflexivity|].
  cbn [fold_left rev]. rewrite IH, find_append.
  destruct (find (fun s0 => (name s0 =? f)%string) (rev schema)); [reflexivity|].
  cbn [find]. destruct (String.eqb_spec (name s) f) as [<-|Hne].
  - apply lookup_insert_eq.
  - apply lookup_insert_ne, Hne.
Qed.

(** X12. The schema map a library is built with sends a name to the last
    field schema of the array that carries it, and knows no other name. *)
Theorem schemaMap_keeps_last_of_each_name (schema : list FieldSchema) (f : string) :
  schemaMap (new_FilterLibrary schema) !! f
  = find (fun s => (name s =? f)%string) (rev schema).
Proof.
  unfold new_FilterLibrary. cbn [schemaMap]. rewrite schemaMap_fold, lookup_empty.
  destruct (find _ (rev schema)); reflexivity.
Qed.

(** X13. Registering a builder under a name makes [buildQuery] answer with
    that builder for the name, replacing an earlier one, leaves every other
    name as it was and does not touch the schema. *)
Theorem registerBuilder_then_buildQuery (lib : FilterLibrary) (nm : string)
    (b : QueryBuilder) (filter : jsval) :
  buildQuery (registerBuilder lib nm b) nm filter = build b filter
  /\ (forall b', buildQuery (registerBuilder (registerBuilder lib nm b') nm b) nm filter
                 = build b filter)
  /\ (forall other, other <> nm ->
        buildQuery (registerBuilder lib nm b) other filter = buildQuery lib other filter)
  /\ schemaMap (registerBuilder lib nm b) = schemaMap lib.
Proof.
  unfold buildQuery, registerBuilder. cbn [builder schemaMap].
  split; [|split; [|split]].
  - rewrite lookup_insert_eq. reflexivity.
  - intros b'. rewrite lookup_insert_eq. reflexivity.
  - intros other Hne. rewrite lookup_insert_ne by congruence. reflexivity.
  - reflexivity.
Qed.






(* ================================================================== *)
(** ** Properties of the repository *)
(* ================================================================== *)

Lemma validate_compiles_to_mongo rt lib filter :
  validate rt lib filter = Ok [] -> exists qs, toMongoQuery rt filter = Ok (VObj qs).
Proof.
  unfold validate, toMongoQuery. destruct (truthy filter); cbn [negb]; intros H.
  - eapply (proj1 (validateNode_compiles_to_mongo rt lib filter)), H.
  - exists []. reflexivity.
Qed.


Lemma buildQuery_repository_mongo rt filter :
  buildQuery (UserRepository_filterLib rt) "mongo" filter = toMongoQuery rt filter.
Proof.
  unfold buildQuery, UserRepository_filterLib, registerBuilder. cbn [builder].
  rewrite lookup_insert_ne by discriminate. rewrite lookup_insert_eq. reflexivity.
Qed.


Lemma filterM_filter {A} (f : A -> result bool) (keep : A -> bool) xs :
  (forall x, In x xs -> f x = Ok (keep x)) -> filterM f xs = Ok (List.filter keep xs).
Proof.
  induction xs as [|x xs IH]; intros H; [reflexivity|].
  cbn [filterM List.filter]. rewrite (H x) by (left; reflexivity).
  rewrite IH by (intros y Hy; apply H; right; exact Hy). reflexivity.
Qed.

(** X15. [filterUsers] on a filter that validates with no error returns the
    records of the collection that the evaluator accepts for the compiled
    Mongo query, in the order of the collection (provided the evaluator
    returns on each record). *)
Theorem filterUsers_keeps_the_accepted_records (rt : Runtime) (collection : list record)
    (filter : jsval) :
  validate rt (UserRepository_filterLib rt) filter = Ok [] ->
  exists q,
    toMongoQuery rt filter = Ok q
    /\ forall keep : record -> bool,
         (forall user, In user collection -> matchesQuery rt user q = Ok (keep user)) ->
         filterUsers rt collection filter = Ok (List.filter keep collection).
Proof.
  intros Hvalid.
  destruct (validate_compiles_to_mongo rt _ filter Hvalid) as (qs & Hq).
  exists (VObj qs). split; [exact Hq|].
  intros keep Hkeep. unfold filterUsers. rewrite Hvalid. cbn [bind length Nat.ltb Nat.leb].
  rewrite buildQuery_repository_mongo, Hq. cbn [bind].
  apply filterM_filter, Hkeep.
Qed.

(** X16. On a filter for which validation reports errors, [filterUsers] and
    [getSqlWhere] both throw the error whose message is [Validation failed: ]
    followed by the JSON text of the error list; nothing is compiled or
    evaluated. *)
Theorem invalid_filter_is_refused (rt : Runtime) (collection : list record)
    (filter : jsval) (e : ValidationError) (es : list ValidationError) :
  validate rt (UserRepository_filterLib rt) filter = Ok (e :: es) ->
  filterUsers rt collection filter
  = Throw (Error ("Validation failed: " +:+ json_errors (e :: es)))
  /\ getSqlWhere rt filter
     = Throw (Error ("Validation failed: " +:+ json_errors (e :: es))).
Proof.
  intros Hvalid. unfold filterUsers, getSqlWhere. rewrite Hvalid. split; reflexivity.
Qed.



(** X18. With no filter, or with the empty object as filter, [filterUsers]
    returns the whole collection. *)
Theorem filterUsers_without_filter_returns_all (rt : Runtime) (collection : list record) :
  Forall (fun filter => filterUsers rt collection filter = Ok collection)
         [VUndefined; VNull; VObj []].
Proof.
  assert (Hall : forall filter,
            validate rt (UserRepository_filterLib rt) filter = Ok [] ->
            toMongoQuery rt filter = Ok (VObj []) ->
            filterUsers rt collection filter = Ok collection).
  { intros filter Hvalid Hq. unfold filterUsers. rewrite Hvalid.
    cbn [bind length Nat.ltb Nat.leb]. rewrite buildQuery_repository_mongo, Hq.
    cbn [bind]. rewrite (filterM_filter _ (fun _ => true)) by reflexivity.
    induction collection as [|u us IH]; [reflexivity|]. cbn [List.filter].
    injection IH as ->. reflexivity. }
  repeat constructor; apply Hall; reflexivity.
Qed.

(* ================================================================== *)
(** ** The UUID pattern *)
(* ================================================================== *)

Lemma matches_classes_length pat cs :
  matches_classes pat cs = true -> length cs = length pat.
Proof.
  revert cs. induction pat as [|cl pat IH]; intros [|c cs] H; try discriminate H.
  - reflexivity.
  - cbn [matches_classes] in H. apply andb_prop in H as [_ H].
    cbn [length]. f_equal. apply IH, H.
Qed.

Lemma matches_classes_nth pat cs i cl :
  matches_classes pat cs = true -> nth_error pat i = Some cl ->
  exists c, nth_error cs i = Some c /\ in_class cl c = true.
Proof.
  revert cs i. induction pat as [|cl0 pat IH]; intros [|c cs] i H Hi; try discriminate H.
  - destruct i; discriminate Hi.
  - cbn [matches_classes] in H. apply andb_prop in H as [Hc H].
    destruct i as [|i].
    + injection Hi as <-. exists c. split; [reflexivity | exact Hc].
    + cbn [nth_error] in Hi |- *. apply IH; assumption.
Qed.

Lemma length_list_ascii s : length (list_ascii_of_string s) = String.length s.
Proof. induction s as [|c s IH]; [reflexivity|]. cbn. f_equal. exact IH. Qed.

Lemma get_list_ascii s i : String.get i s = nth_error (list_ascii_of_string s) i.
Proof.
  revert i. induction s as [|c s IH]; intros [|i]; try reflexivity.
  cbn [String.get list_ascii_of_string nth_error]. apply IH.
Qed.

(** X19. A string [checkType] accepts as a UUID has 36 characters, a dash at
    the offsets 8, 13, 18 and 23, a version digit from 1 to 5 at offset 14 and
    one of the lower-case variant characters 8, 9, a, b at offset 19. *)
Theorem accepted_uuid_layout (s : string) :
  uuid_shape s = true ->
  String.length s = 36
  /\ Forall (fun i => String.get i s = Some "-"%char) [8; 13; 18; 23]
  /\ (exists c, String.get 14 s = Some c /\ between_chars "1" "5" c = true)
  /\ (exists c, String.get 19 s = Some c /\ In c ["8"; "9"; "a"; "b"]%char).
Proof.
  unfold uuid_shape. intros H.
  assert (Hdash : forall i, nth_error uuid_pattern i = Some Dash ->
                            String.get i s = Some "-"%char).
  { intros i Hi. destruct (matches_classes_nth _ _ i Dash H Hi) as (c & Hc & Hin).
    rewrite get_list_ascii, Hc. cbn [in_class] in Hin.
    apply Ascii.eqb_eq in Hin. rewrite Hin. reflexivity. }
  split; [|split; [|split]].
  - rewrite <- length_list_ascii. apply matches_classes_length in H. exact H.
  - repeat constructor; apply Hdash; reflexivity.
  - destruct (matches_classes_nth _ _ 14 Version H eq_refl) as (c & Hc & Hin).
    exists c. rewrite get_list_ascii. split; [exact Hc | exact Hin].
  - destruct (matches_classes_nth _ _ 19 Variant H eq_refl) as (c & Hc & Hin).
    exists c. rewrite get_list_ascii. split; [exact Hc|].
    cbn [in_class] in Hin.
    repeat (apply orb_prop in Hin as [Hin|Hin]);
      apply Ascii.eqb_eq in Hin; rewrite Hin; cbn; tauto.
Qed.

Lemma accepted_uuid_layout_witness :
  uuid_shape "123e4567-e89b-12d3-a456-426614174000" = true
  /\ String.length "123e4567-e89b-12d3-a456-426614174000" = 36
  /\ uuid_shape "123e4567-e89b-12d3-A456-426614174000" = false.
Proof.
  split; [reflexivity|]. split; [|reflexivity].
  exact (proj1 (accepted_uuid_layout "123e4567-e89b-12d3-a456-426614174000" eq_refl)).
Defined.

(** X20. A query compiled from [contains], [starts_with] or [ends_with] is
    accepted for no record: next to [$regex] the compiler writes the key
    [$options], on which the evaluator's [switch] takes its default branch
    and returns [false]. *)
Theorem text_search_conditions_accept_no_record (rt : Runtime) (user : record)
    (f op : string) (v q : jsval) :
  f <> "$and" -> f <> "$or" ->
  In op ["contains"; "starts_with"; "ends_with"] ->
  toMongoQuery rt (Condition f op v) = Ok q ->
  matchesQuery rt user q <> Ok true.
Proof.
  intros Hand Hor Hop Hq.
  rewrite toMongoQuery_Condition in Hq. unfold conditionToMongo, Condition in Hq.
  cbn [get bind] in Hq.
  change (prop "field" _) with (VStr f) in Hq.
  change (prop "value" _) with v in Hq.
  change (prop "operator" _) with (VStr op) in Hq.
  destruct Hop as [<-|[<-|[<-|[]]]];
    [change (operator_of (VStr "contains")) with (Some Op_contains) in Hq
    |change (operator_of (VStr "starts_with")) with (Some Op_starts_with) in Hq
    |change (operator_of (VStr "ends_with")) with (Some Op_ends_with) in Hq];
    cbn [toStr bind] in Hq.
  - injection Hq as <-. apply regex_query_matches_no_record; assumption.
  - apply bind_Ok in Hq as (s & _ & Hq). injection Hq as <-.
    apply regex_query_matches_no_record; assumption.
  - apply bind_Ok in Hq as (s & _ & Hq). injection Hq as <-.
    apply regex_query_matches_no_record; assumption.
Qed.

Lemma text_search_conditions_accept_no_record_witness :
  let q := VObj [("name", VObj [("$regex", VStr "Ali"); ("$options", VStr "i")])] in
  toMongoQuery sample_runtime (Condition "name" "contains" (VStr "Ali")) = Ok q
  /\ matchesQuery sample_runtime alice q <> Ok true.
Proof.
  intros q. split; [reflexivity|].
  apply (text_search_conditions_accept_no_record sample_runtime alice "name" "contains"
           (VStr "Ali") q); [discriminate | discriminate | left; reflexivity | reflexivity].
Defined.

(* ================================================================== *)
(** ** Instances of the properties above *)
(* ================================================================== *)

Lemma validation_errors_lie_below_root_witness :
  let filter := Group [Condition "age" "eq" (VStr "x")]
                      [Condition "password" "eq" VNull] in
  let errors :=
    [ {| path := "<root>.and[0].value"; message := "must be a number" |};
      {| path := "<root>.or[0]";
         message := "Field " +:+ dq +:+ "password" +:+ dq +:+ " is not allowed for filtering" |} ] in
  validate sample_runtime (new_FilterLibrary userSchema) filter = Ok errors
  /\ Forall (below "<root>") errors.
Proof.
  intros filter errors.
  assert (H : validate sample_runtime (new_FilterLibrary userSchema) filter = Ok errors)
    by (vm_compute; reflexivity).
  split; [exact H|].
  exact (validation_errors_lie_below_root sample_runtime _ filter errors H).
Defined.

Lemma valid_filter_touches_exposed_fields_only_witness :
  validate sample_runtime (new_FilterLibrary userSchema) nested_filter = Ok []
  /\ length (conditions nested_filter) = 3
  /\ Forall (exposed (new_FilterLibrary userSchema)) (conditions nested_filter).
Proof.
  assert (H : validate sample_runtime (new_FilterLibrary userSchema) nested_filter = Ok [])
    by (vm_compute; reflexivity).
  split; [exact H|]. split; [reflexivity|].
  exact (valid_filter_touches_exposed_fields_only sample_runtime _ nested_filter H).
Defined.

Lemma valid_filter_compiles_to_mongo_witness :
  validate sample_runtime (new_FilterLibrary userSchema) nested_filter = Ok []
  /\ exists qs, toMongoQuery sample_runtime nested_filter = Ok (VObj qs).
Proof.
  assert (H : validate sample_runtime (new_FilterLibrary userSchema) nested_filter = Ok [])
    by (vm_compute; reflexivity).
  split; [exact H|].
  exact (valid_filter_compiles_to_mongo sample_runtime _ nested_filter H).
Defined.



Lemma ordering_conditions_compare_numbers_witness :
  evaluates sample_runtime alice (Condition "age" "gt" (VNum 30)) true
  /\ evaluates sample_runtime alice (Condition "age" "lte" (VNum 30)) false.
Proof.
  assert (H := ordering_conditions_compare_numbers sample_runtime alice "age" 35 30).
  destruct H as (Hgt & _ & _ & Hlte); [discriminate | discriminate | reflexivity |].
  split; [exact Hgt | exact Hlte].
Defined.

Lemma between_condition_is_closed_range_witness :
  evaluates sample_runtime alice (Condition "age" "between" (VArr [VNum 35; VNum 40])) true
  /\ evaluates sample_runtime bob (Condition "age" "between" (VArr [VNum 35; VNum 40])) false.
Proof.
  split.
  - apply (between_condition_is_closed_range sample_runtime alice "age" 35 35 40);
      [discriminate | discriminate | reflexivity].
  - apply (between_condition_is_closed_range sample_runtime bob "age" 28 35 40);
      [discriminate | discriminate | reflexivity].
Defined.



Lemma single_branch_group_is_conjunction_or_disjunction_witness :
  let cs := [Condition "isActive" "eq" (VBool true); Condition "age" "gt" (VNum 36)] in
  evaluates sample_runtime alice (VObj [("and", VArr cs)]) false
  /\ evaluates sample_runtime alice (VObj [("or", VArr cs)]) true.
Proof.
  intros cs.
  apply (single_branch_group_is_conjunction_or_disjunction sample_runtime alice cs
           [true; false]).
  repeat constructor; eexists; split; reflexivity.
Defined.

Lemma unsupported_operator_stops_both_compilers_witness :
  let cond := Condition "name" "like" (VStr "A%") in
  toMongoQuery sample_runtime cond = Throw (Error "Unsupported operator: like")
  /\ toSqlWhere sample_runtime cond = Throw (Error "Unsupported operator: like").
Proof.
  intros cond.
  apply (unsupported_operator_stops_both_compilers sample_runtime
           [("field", VStr "name"); ("operator", VStr "like"); ("value", VStr "A%")]
           (VStr "name") "like"); [reflexivity | reflexivity |].
  cbn. intros H. repeat (destruct H as [H|H]; [discriminate H|]). exact H.
Defined.

Lemma registerBuilder_then_buildQuery_witness :
  let lib := new_FilterLibrary userSchema in
  let filter := Condition "age" "gt" (VNum 30) in
  buildQuery (registerBuilder (registerBuilder lib "q" (SqlBuilder sample_runtime))
                              "q" (MongoBuilder sample_runtime)) "q" filter
  = Ok (VObj [("age", VObj [("$gt", VNum 30)])])
  /\ buildQuery (registerBuilder lib "q" (MongoBuilder sample_runtime)) "sql" filter
     = buildQuery lib "sql" filter.
Proof.
  intros lib filter. split.
  - exact (proj1 (proj2 (registerBuilder_then_buildQuery lib "q"
                           (MongoBuilder sample_runtime) filter))
                 (SqlBuilder sample_runtime)).
  - apply (proj1 (proj2 (proj2 (registerBuilder_then_buildQuery lib "q"
                                  (MongoBuilder sample_runtime) filter)))).
    discriminate.
Defined.

Lemma filterUsers_keeps_the_accepted_records_witness :
  filterUsers sample_runtime users (Condition "age" "gt" (VNum 30)) = Ok [alice; charlie].
Proof.
  assert (Hvalid : validate sample_runtime (UserRepository_filterLib sample_runtime)
                     (Condition "age" "gt" (VNum 30)) = Ok [])
    by (vm_compute; reflexivity).
  destruct (filterUsers_keeps_the_accepted_records sample_runtime users _ Hvalid)
    as (q & Hq & Hkeep).
  injection Hq as <-.
  apply (Hkeep (fun user => match prop "age" user with
                            | VNum m => (30 <? m)%Z
                            | _ => false
                            end)).
  intros user [<-|[<-|[<-|[]]]]; reflexivity.
Defined.

Lemma invalid_filter_is_refused_witness :
  filterUsers sample_runtime users (Condition "nonexistent" "eq" (VStr "x"))
  = Throw (Error ("Validation failed: [{" +:+ dq +:+ "path" +:+ dq +:+ ":" +:+ dq
                  +:+ "<root>" +:+ dq +:+ "," +:+ dq +:+ "message" +:+ dq +:+ ":" +:+ dq
                  +:+ "Field \" +:+ dq +:+ "nonexistent\" +:+ dq
                  +:+ " is not allowed for filtering" +:+ dq +:+ "}]")).
Proof.
  assert (Hvalid : validate sample_runtime (UserRepository_filterLib sample_runtime)
                     (Condition "nonexistent" "eq" (VStr "x"))
                   = Ok [ {| path := "<root>";
                             message := "Field " +:+ dq +:+ "nonexistent" +:+ dq
                                        +:+ " is not allowed for filtering" |} ])
    by (vm_compute; reflexivity).
  exact (proj1 (invalid_filter_is_refused sample_runtime users _ _ _ Hvalid)).
Defined.

